(** * Html5Fs: the HTML5 filesystem mount of nacl_io

    A shallow embedding of
    [native_client_sdk/src/libraries/nacl_io/html5fs/html5_fs.cc].

    The mount object [Html5Fs] forwards POSIX-like calls to the Pepper
    file-reference interface.  Every call is gated on the outcome of the
    one-time asynchronous open of the underlying Pepper filesystem.

    Modelling conventions.
    - C integers ([Error], [int32_t] results, [PP_Resource]) are [Z]; a C
      condition [if (x)] is [nonzero x].
    - The Pepper browser interface is a type class: each entry point is a
      function of the browser state [World].  Every call made through
      [ppapi()] is appended to a log, so that "no request is issued" is a
      statement about that log.
    - A member function is a computation in the monad [M], whose state is
      the object's fields, the browser state and the call log.  A
      computation yields [None] when the calling thread is parked on the
      condition variable of the gate: it returns only from a later state,
      after the completion callback has run on another thread.  The mutex
      and the condition variable themselves are not modelled.
    - Destructors of [ScopedResource] and [ScopedNode] are declared outside
      this translation unit and are not part of the log. *)

From Stdlib Require Import ZArith String Ascii List Bool Lia.
Import ListNotations.
Local Open Scope string_scope.
Local Open Scope list_scope.
Local Open Scope Z_scope.

(** ** C scalars *)

Definition Error := Z.
Definition PP_Resource := Z.
Definition PP_Instance := Z.

Definition nonzero (x : Z) : bool := negb (x =? 0).

(** Conversion of an [unsigned long long] to a signed [w]-bit integer. *)
Definition to_signed (w : Z) (x : Z) : Z :=
  (x + 2 ^ (w - 1)) mod 2 ^ w - 2 ^ (w - 1).
Definition to_int32 : Z -> Z := to_signed 32.
Definition to_int64 : Z -> Z := to_signed 64.

(** Values of <errno.h>.  The five codes the file names with a fixed meaning
    agree between the glibc and newlib toolchains; [ENOSYS] is 38 on glibc
    (88 on newlib) and [EIO] is 5 on both. *)
Module Errno.
Definition ENOENT : Error := 2.
Definition EIO : Error := 5.
Definition EEXIST : Error := 17.
Definition ENOTDIR : Error := 20.
Definition EISDIR : Error := 21.
Definition EINVAL : Error := 22.
Definition ENOSYS : Error := 38.
End Errno.
Import Errno.

(** <fcntl.h> *)
Definition O_RDONLY : Z := 0.

(** Values of ppapi/c/pp_errors.h, pp_file_info.h and ppb_file_system.h. *)
Definition PP_OK : Z := 0.
Definition PP_OK_COMPLETIONPENDING : Z := -1.
Definition PP_ERROR_FAILED : Z := -2.
Definition PP_FILETYPE_REGULAR : Z := 0.
Definition PP_FILETYPE_DIRECTORY : Z := 1.
Definition PP_FILETYPE_OTHER : Z := 2.

Inductive PP_FileSystemType :=
| PP_FILESYSTEMTYPE_LOCALPERSISTENT
| PP_FILESYSTEMTYPE_LOCALTEMPORARY.

(** Modelled from the spec: the restriction mask of the generalized remove
    (directory-only / file-only / unrestricted).  The enumeration itself is
    declared in nacl_io/filesystem.h, which is not among the sources; the
    code only relies on the two restricted masks being distinct bits and on
    the unrestricted mask being their union. *)
Definition REMOVE_DIR : Z := 1.
Definition REMOVE_FILE : Z := 2.
Definition REMOVE_ALL : Z := Z.lor REMOVE_DIR REMOVE_FILE.

(** ** [const char*] arguments

    A [const char*] obtained from [std::string::c_str()] points into the
    string's buffer.  While the string is alive the callee reads its
    characters; once the string has been destroyed the pointer dangles and
    what the callee reads is no longer determined by the program.  The
    constructor [Dangling] keeps the characters the buffer held, so that the
    log stays readable. *)
Inductive CharPtr :=
| Live (s : string)
| Dangling (s : string).

Definition c_str (s : string) : CharPtr := Live s.

(** End of the full-expression that created the temporary [std::string]:
    the temporary is destroyed, a pointer kept in a local variable dangles. *)
Definition end_of_full_expression (p : CharPtr) : CharPtr :=
  match p with
  | Live s => Dangling s
  | Dangling s => Dangling s
  end.

(** ** libc: [strtoull(nptr, NULL, 10)] *)

Definition ULLONG_MAX : Z := 2 ^ 64 - 1.

Definition isspace (c : ascii) : bool :=
  let n := Z.of_nat (nat_of_ascii c) in
  (n =? 32) || ((9 <=? n) && (n <=? 13)).

Definition digit_of (c : ascii) : option Z :=
  let n := Z.of_nat (nat_of_ascii c) in
  if (48 <=? n) && (n <=? 57) then Some (n - 48) else None.

Fixpoint skip_space (s : string) : string :=
  match s with
  | String c r => if isspace c then skip_space r else s
  | EmptyString => s
  end.

(** Accumulates the decimal digits; the flag records an overflow of the
    64-bit range. *)
Fixpoint read_digits (s : string) (acc : Z) (ovf : bool) : Z * bool :=
  match s with
  | String c r =>
      match digit_of c with
      | Some d =>
          let acc' := acc * 10 + d in
          if ULLONG_MAX <? acc' then read_digits r ULLONG_MAX true
          else read_digits r acc' ovf
      | None => (acc, ovf)
      end
  | EmptyString => (acc, ovf)
  end.

Definition strtoull (nptr : string) : Z :=
  let s := skip_space nptr in
  let '(neg, s) :=
    match s with
    | String "-" r => (true, r)
    | String "+" r => (false, r)
    | _ => (false, s)
    end in
  let '(v, ovf) := read_digits s 0 false in
  if ovf then ULLONG_MAX
  else if neg then (2 ^ 64 - v) mod 2 ^ 64
  else v.

(** ** External interfaces *)

(** nacl_io/path.h.  Only the three members the file calls. *)
Class PathInterface := {
  Path : Type;
  Path_Prepend : string -> Path -> Path;
  Path_Join : Path -> string;
  Path_IsRoot : Path -> bool
}.

(** nacl_io/pepper_interface.h: the browser, seen through the entry points
    the file calls, together with the error translation declared there.
    [FileSystem_Open] receives [true] when a completion callback is
    registered and [false] for [PP_BlockUntilComplete()]. *)
Class PepperInterface := {
  World : Type;
  GetInstance : PP_Instance;
  PPErrorToErrno : Z -> Error;
  IsMainThread : World -> bool * World;
  AddRefResource : PP_Resource -> World -> World;
  IsFileSystem : PP_Resource -> World -> bool * World;
  FileSystem_Create :
    PP_Instance -> PP_FileSystemType -> World -> PP_Resource * World;
  FileSystem_Open : PP_Resource -> Z -> bool -> World -> Z * World;
  FileRef_Create : PP_Resource -> CharPtr -> World -> PP_Resource * World;
  FileRef_Query : PP_Resource -> World -> (Z * Z) * World;
  FileRef_MakeDirectory : PP_Resource -> bool -> World -> Z * World;
  FileRef_Delete : PP_Resource -> World -> Z * World;
  FileRef_Rename : PP_Resource -> PP_Resource -> World -> Z * World
}.

(** One entry per call that leaves the translation unit towards the
    browser: the Pepper entry points and the initialization of a node. *)
Inductive PPCall :=
| CallIsMainThread
| CallAddRefResource (resource : PP_Resource)
| CallIsFileSystem (resource : PP_Resource)
| CallFileSystemCreate (instance : PP_Instance) (type : PP_FileSystemType)
| CallFileSystemOpen (filesystem : PP_Resource) (expected_size : Z)
                     (with_callback : bool)
| CallFileRefCreate (filesystem : PP_Resource) (path : CharPtr)
| CallQuery (fileref : PP_Resource)
| CallMakeDirectory (fileref : PP_Resource) (make_ancestors : bool)
| CallDelete (fileref : PP_Resource)
| CallRename (fileref : PP_Resource) (new_fileref : PP_Resource)
| CallNodeInit (fileref : PP_Resource) (open_flags : Z).

(** nacl_io/html5fs/html5_fs_node.h: the node built by [Open].  Its [Init]
    talks to the browser and is defined in another translation unit. *)
Record Html5FsNode := { fileref_resource_ : PP_Resource }.
Definition ScopedNode := option Html5FsNode.

Class NodeInterface `{PepperInterface} := {
  Html5FsNode_Init : Html5FsNode -> Z -> World -> Error * World
}.

(** nacl_io/filesystem.h: arguments of [Init].  [string_map] lists the
    entries of the [std::map] in iteration order, that is by ascending key. *)
Definition StringMap_t := list (string * string).

Record FsInitArgs := {
  dev : Z;
  ppapi : bool;
  string_map : StringMap_t
}.

Class FilesystemBase := {
  Filesystem_Init : FsInitArgs -> Error
}.

(** Ascending, duplicate-free keys: the iteration order of [std::map]. *)
Fixpoint keys_ascending (m : StringMap_t) : bool :=
  match m with
  | (k1, _) :: (((k2, _) :: _) as rest) =>
      (k1 <? k2)%string && keys_ascending rest
  | _ => true
  end.

(** ** The object and the monad of its member functions *)

Record Html5Fs := {
  filesystem_resource_ : PP_Resource;
  filesystem_open_has_result_ : bool;
  filesystem_open_error_ : Error;
  prefix_ : string
}.

(** [Html5Fs::Html5Fs()] *)
Definition Html5Fs_new : Html5Fs :=
  {| filesystem_resource_ := 0;
     filesystem_open_has_result_ := false;
     filesystem_open_error_ := 0;
     prefix_ := "" |}.

Section Monad.
Context {PP : PepperInterface}.

Record Machine := {
  self : Html5Fs;
  world : World;
  calls : list PPCall
}.

Definition M (A : Type) : Type := Machine -> option (A * Machine).

Definition ret {A} (a : A) : M A := fun m => Some (a, m).

Definition bind {A B} (c : M A) (k : A -> M B) : M B :=
  fun m => match c m with
           | Some (a, m') => k a m'
           | None => None
           end.

(** The calling thread waits on the condition variable. *)
Definition wait {A} : M A := fun _ => None.

Definition this : M Html5Fs := fun m => Some (self m, m).

Definition assign (f : Html5Fs -> Html5Fs) : M unit :=
  fun m =>
    Some (tt, {| self := f (self m); world := world m; calls := calls m |}).

(** A call towards the browser: logged, then answered. *)
Definition ppapi_call {A} (c : PPCall) (f : World -> A * World) : M A :=
  fun m => let '(a, w) := f (world m) in
           Some (a, {| self := self m; world := w; calls := calls m ++ [c] |}).

End Monad.

Declare Scope fs_scope.
Delimit Scope fs_scope with fs.
Notation "x <- c ;; k" := (bind c (fun x => k))
  (at level 61, c at next level, right associativity) : fs_scope.
Notation "c ;; k" := (bind c (fun _ => k))
  (at level 61, right associativity) : fs_scope.
Local Open Scope fs_scope.

(** ** html5_fs.cc *)

Section Html5FsImpl.
Context {PI : PathInterface} {PP : PepperInterface}
        {NI : NodeInterface} {FB : FilesystemBase}.

(** [while (!filesystem_open_has_result_) pthread_cond_wait(...);
     return filesystem_open_error_;] *)
Definition BlockUntilFilesystemOpen : M Error :=
  fs <- this ;;
  if filesystem_open_has_result_ fs
  then ret (filesystem_open_error_ fs)
  else wait.

Definition set_filesystem_resource (r : PP_Resource) (fs : Html5Fs) : Html5Fs :=
  {| filesystem_resource_ := r;
     filesystem_open_has_result_ := filesystem_open_has_result_ fs;
     filesystem_open_error_ := filesystem_open_error_ fs;
     prefix_ := prefix_ fs |}.

Definition set_prefix (p : string) (fs : Html5Fs) : Html5Fs :=
  {| filesystem_resource_ := filesystem_resource_ fs;
     filesystem_open_has_result_ := filesystem_open_has_result_ fs;
     filesystem_open_error_ := filesystem_open_error_ fs;
     prefix_ := p |}.

Definition resolve_gate (e : Error) (fs : Html5Fs) : Html5Fs :=
  {| filesystem_resource_ := filesystem_resource_ fs;
     filesystem_open_has_result_ := true;
     filesystem_open_error_ := e;
     prefix_ := prefix_ fs |}.

(** [filesystem_open_has_result_ = true;
     filesystem_open_error_ = PPErrorToErrno(result);] *)
Definition FilesystemOpenCallback (result : Z) : M unit :=
  assign (resolve_gate (PPErrorToErrno result)).

Definition GetFullPath (path : Path) : M Path :=
  fs <- this ;;
  let full_path := path in
  ret (Path_Prepend (prefix_ fs) full_path).

(** [out_node] is the content of the caller's slot on entry; the second
    component of the result is its content on return. *)
Definition Open (path : Path) (open_flags : Z) (out_node : ScopedNode)
  : M (Error * ScopedNode) :=
  let out_node : ScopedNode := None in
  error <- BlockUntilFilesystemOpen ;;
  if nonzero error then ret (error, out_node) else
  fs <- this ;;
  full_path <- GetFullPath path ;;
  fileref <- ppapi_call
    (CallFileRefCreate (filesystem_resource_ fs) (c_str (Path_Join full_path)))
    (FileRef_Create (filesystem_resource_ fs) (c_str (Path_Join full_path))) ;;
  if negb (nonzero fileref) then ret (ENOENT, out_node) else
  let node := {| fileref_resource_ := fileref |} in
  error <- ppapi_call (CallNodeInit fileref open_flags)
                      (Html5FsNode_Init node open_flags) ;;
  if nonzero error then ret (error, out_node) else
  let out_node := Some node in
  ret (0, out_node).

Definition Access (path : Path) (a_mode : Z) : M Error :=
  let node : ScopedNode := None in
  r <- Open path O_RDONLY node ;;
  ret (fst r).

Definition Mkdir (path : Path) (permissions : Z) : M Error :=
  error <- BlockUntilFilesystemOpen ;;
  if nonzero error then ret error else
  if Path_IsRoot path then ret EEXIST else
  fs <- this ;;
  full_path <- GetFullPath path ;;
  fileref_resource <- ppapi_call
    (CallFileRefCreate (filesystem_resource_ fs) (c_str (Path_Join full_path)))
    (FileRef_Create (filesystem_resource_ fs) (c_str (Path_Join full_path))) ;;
  if negb (nonzero fileref_resource) then ret ENOENT else
  result <- ppapi_call (CallMakeDirectory fileref_resource false)
                       (FileRef_MakeDirectory fileref_resource false) ;;
  if negb (result =? PP_OK) then ret (PPErrorToErrno result) else
  ret 0.

Definition RemoveInternal (path : Path) (remove_type : Z) : M Error :=
  error <- BlockUntilFilesystemOpen ;;
  if nonzero error then ret error else
  fs <- this ;;
  full_path <- GetFullPath path ;;
  fileref_resource <- ppapi_call
    (CallFileRefCreate (filesystem_resource_ fs) (c_str (Path_Join full_path)))
    (FileRef_Create (filesystem_resource_ fs) (c_str (Path_Join full_path))) ;;
  if negb (nonzero fileref_resource) then ret ENOENT else
  (* Check file type *)
  checked <-
    (if negb (remove_type =? REMOVE_ALL) then
       q <- ppapi_call (CallQuery fileref_resource)
                       (FileRef_Query fileref_resource) ;;
       let query_result := fst q in
       let file_info_type := snd q in
       if negb (query_result =? PP_OK) then ret (Some EINVAL) else
       if file_info_type =? PP_FILETYPE_DIRECTORY then
         if negb (nonzero (Z.land remove_type REMOVE_DIR))
         then ret (Some EISDIR)
         else ret None
       else if file_info_type =? PP_FILETYPE_REGULAR then
         if negb (nonzero (Z.land remove_type REMOVE_FILE))
         then ret (Some ENOTDIR)
         else ret None
       else ret (Some EINVAL)
     else ret None) ;;
  match checked with
  | Some e => ret e
  | None =>
      result <- ppapi_call (CallDelete fileref_resource)
                           (FileRef_Delete fileref_resource) ;;
      if negb (result =? PP_OK) then ret (PPErrorToErrno result) else
      ret 0
  end.

Definition Unlink (path : Path) : M Error := RemoveInternal path REMOVE_FILE.
Definition Rmdir (path : Path) : M Error := RemoveInternal path REMOVE_DIR.
Definition Remove (path : Path) : M Error := RemoveInternal path REMOVE_ALL.

(** Both full paths are kept as [const char*] locals across the end of
    the statement that built the temporary string. *)
Definition Rename (path newpath : Path) : M Error :=
  error <- BlockUntilFilesystemOpen ;;
  if nonzero error then ret error else
  fs <- this ;;
  full_path <- GetFullPath path ;;
  let oldpath_full :=
    end_of_full_expression (c_str (Path_Join full_path)) in
  fileref_resource <- ppapi_call
    (CallFileRefCreate (filesystem_resource_ fs) oldpath_full)
    (FileRef_Create (filesystem_resource_ fs) oldpath_full) ;;
  if negb (nonzero fileref_resource) then ret ENOENT else
  new_full_path <- GetFullPath newpath ;;
  let newpath_full :=
    end_of_full_expression (c_str (Path_Join new_full_path)) in
  new_fileref_resource <- ppapi_call
    (CallFileRefCreate (filesystem_resource_ fs) newpath_full)
    (FileRef_Create (filesystem_resource_ fs) newpath_full) ;;
  if negb (nonzero new_fileref_resource) then ret ENOENT else
  result <- ppapi_call (CallRename fileref_resource new_fileref_resource)
                       (FileRef_Rename fileref_resource new_fileref_resource) ;;
  if negb (result =? PP_OK) then ret (PPErrorToErrno result) else
  ret 0.

(** The body of the loop over [args.string_map], with its early returns:
    [inl e] is [return e], [inr] carries the two locals out of the loop. *)
Fixpoint parse_args (string_map : StringMap_t)
         (filesystem_type : PP_FileSystemType) (expected_size : Z)
  : M (Error + PP_FileSystemType * Z) :=
  match string_map with
  | [] => ret (inr (filesystem_type, expected_size))
  | (first, second) :: rest =>
      if (first =? "type")%string then
        if (second =? "PERSISTENT")%string then
          parse_args rest PP_FILESYSTEMTYPE_LOCALPERSISTENT expected_size
        else if (second =? "TEMPORARY")%string then
          parse_args rest PP_FILESYSTEMTYPE_LOCALTEMPORARY expected_size
        else if (second =? "")%string then
          parse_args rest PP_FILESYSTEMTYPE_LOCALPERSISTENT expected_size
        else ret (inl EINVAL)
      else if (first =? "expected_size")%string then
        parse_args rest filesystem_type (to_int64 (strtoull second))
      else if (first =? "filesystem_resource")%string then
        let resource := to_int32 (strtoull second) in
        valid <- ppapi_call (CallIsFileSystem resource)
                            (IsFileSystem resource) ;;
        if negb valid then ret (inl EINVAL) else
        assign (set_filesystem_resource resource) ;;
        ppapi_call (CallAddRefResource resource)
                   (fun w => (tt, AddRefResource resource w)) ;;
        parse_args rest filesystem_type expected_size
      else if (first =? "SOURCE")%string then
        assign (set_prefix second) ;;
        parse_args rest filesystem_type expected_size
      else ret (inl EINVAL)
  end.

Definition Init (args : FsInitArgs) : M Error :=
  let error := Filesystem_Init args in
  if nonzero error then ret error else
  if negb (ppapi args) then ret ENOSYS else
  (* Parse filesystem args. *)
  parsed <- parse_args (string_map args) PP_FILESYSTEMTYPE_LOCALPERSISTENT 0 ;;
  match parsed with
  | inl e => ret e
  | inr (filesystem_type, expected_size) =>
      fs <- this ;;
      if nonzero (filesystem_resource_ fs) then
        assign (resolve_gate PP_OK) ;;
        ret 0
      else
        (* Initialize filesystem. *)
        resource <- ppapi_call
          (CallFileSystemCreate GetInstance filesystem_type)
          (FileSystem_Create GetInstance filesystem_type) ;;
        assign (set_filesystem_resource resource) ;;
        if resource =? 0 then ret ENOSYS else
        main_thread <- ppapi_call CallIsMainThread IsMainThread ;;
        result <- ppapi_call
          (CallFileSystemOpen resource expected_size main_thread)
          (FileSystem_Open resource expected_size main_thread) ;;
        if negb main_thread then
          assign (resolve_gate (PPErrorToErrno result)) ;;
          ret (PPErrorToErrno result)
        else
          (* We have to assume the call to Open will succeed. *)
          ret 0
  end.

(** *** Calls of a client, in sequence *)

Inductive Operation :=
| OpAccess (path : Path) (a_mode : Z)
| OpOpen (path : Path) (open_flags : Z)
| OpMkdir (path : Path) (permissions : Z)
| OpRmdir (path : Path)
| OpUnlink (path : Path)
| OpRemove (path : Path)
| OpRename (path newpath : Path).

Definition perform (op : Operation) : M Error :=
  match op with
  | OpAccess path a_mode => Access path a_mode
  | OpOpen path open_flags => r <- Open path open_flags None ;; ret (fst r)
  | OpMkdir path permissions => Mkdir path permissions
  | OpRmdir path => Rmdir path
  | OpUnlink path => Unlink path
  | OpRemove path => Remove path
  | OpRename path newpath => Rename path newpath
  end.

Fixpoint perform_all (ops : list Operation) : M (list Error) :=
  match ops with
  | [] => ret []
  | op :: rest =>
      e <- perform op ;;
      es <- perform_all rest ;;
      ret (e :: es)
  end.

(** The spec's words for [access]: an existence probe, that is the path
    opened for reading, the node dropped and the outcome kept. *)
Definition existence_probe (path : Path) : M Error :=
  fun m =>
    option_map (fun r => (fst (fst r), snd r)) (Open path O_RDONLY None m).

(** The full path of a logical path, as a string. *)
Definition full_path_string (fs : Html5Fs) (path : Path) : string :=
  Path_Join (Path_Prepend (prefix_ fs) path).

(** The logical paths an operation is given. *)
Definition paths_of (op : Operation) : list Path :=
  match op with
  | OpAccess p _ | OpOpen p _ | OpMkdir p _
  | OpRmdir p | OpUnlink p | OpRemove p => [p]
  | OpRename p q => [p; q]
  end.

Definition is_rename (op : Operation) : bool :=
  match op with OpRename _ _ => true | _ => false end.

End Html5FsImpl.

(** ** Vocabulary of the statements *)

Section Vocabulary.
Context {PP : PepperInterface}.

(** The gate has been resolved. *)
Definition resolved (m : Machine) : Prop :=
  filesystem_open_has_result_ (self m) = true.

(** The gate has been resolved to success. *)
Definition ready (m : Machine) : Prop :=
  resolved m /\ filesystem_open_error_ (self m) = 0.

(** The machine [m] after the browser went to [w] answering [cs]. *)
Definition logged (m : Machine) (w : World) (cs : list PPCall) : Machine :=
  {| self := self m; world := w; calls := calls m ++ cs |}.

(** Validation and retention of a handle supplied by the configuration. *)
Definition validates_handle (c : PPCall) : bool :=
  match c with
  | CallIsFileSystem _ | CallAddRefResource _ => true
  | _ => false
  end.

(** What the parse loop of [Init] may do to the machine: validate and
    retain handles, and leave the gate alone. *)
Definition parse_effect (m m' : Machine) (cs : list PPCall) : Prop :=
  calls m' = calls m ++ cs /\
  forallb validates_handle cs = true /\
  filesystem_open_has_result_ (self m') =
    filesystem_open_has_result_ (self m) /\
  filesystem_open_error_ (self m') = filesystem_open_error_ (self m).


End Vocabulary.

(** Entries of the configuration that the parse loop rejects by itself. *)
Definition known_key (k : string) : bool :=
  ((k =? "type") || (k =? "expected_size") ||
   (k =? "filesystem_resource") || (k =? "SOURCE"))%string.

Definition known_type (v : string) : bool :=
  ((v =? "PERSISTENT") || (v =? "TEMPORARY") || (v =? ""))%string.

Definition names_resource (kv : string * string) : bool :=
  (fst kv =? "filesystem_resource")%string.

Definition rejected_entry (kv : string * string) : bool :=
  negb (known_key (fst kv)) ||
  ((fst kv =? "type")%string && negb (known_type (snd kv))).

(** The value the parse loop ends up with for a key: the loop overwrites,
    so the last entry of the key counts.  The keys of a [std::map] are
    unique, and then this is the value stored under the key. *)
Fixpoint setting (k : string) (m : StringMap_t) : option string :=
  match m with
  | [] => None
  | (first, second) :: rest =>
      match setting k rest with
      | Some v => Some v
      | None => if (first =? k)%string then Some second else None
      end
  end.

(** What an accepted configuration asks for, with the defaults of [Init]. *)
Definition configured_type (m : StringMap_t) (default : PP_FileSystemType)
  : PP_FileSystemType :=
  match setting "type" m with
  | Some v => if (v =? "TEMPORARY")%string
              then PP_FILESYSTEMTYPE_LOCALTEMPORARY
              else PP_FILESYSTEMTYPE_LOCALPERSISTENT
  | None => default
  end.

Definition configured_size (m : StringMap_t) (default : Z) : Z :=
  match setting "expected_size" m with
  | Some v => to_int64 (strtoull v)
  | None => default
  end.

Definition configured_prefix (m : StringMap_t) (default : string) : string :=
  match setting "SOURCE" m with
  | Some v => v
  | None => default
  end.

Definition configured_resource (m : StringMap_t) (default : PP_Resource)
  : PP_Resource :=
  match setting "filesystem_resource" m with
  | Some v => to_int32 (strtoull v)
  | None => default
  end.

(** Requests that change the stored files. *)
Definition mutates (c : PPCall) : bool :=
  match c with
  | CallMakeDirectory _ _ | CallDelete _ | CallRename _ _ => true
  | _ => false
  end.

(** Calls about the filesystem as a whole, as opposed to its entries. *)
Definition about_filesystem (c : PPCall) : bool :=
  match c with
  | CallIsMainThread | CallAddRefResource _ | CallIsFileSystem _
  | CallFileSystemCreate _ _ | CallFileSystemOpen _ _ _ => true
  | _ => false
  end.


(** [Access] and [Open] probe; the other operations ask for a change. *)
Definition is_probe {PI : PathInterface} (op : Operation) : bool :=
  match op with
  | OpAccess _ _ | OpOpen _ _ => true
  | _ => false
  end.

(** ** A small in-memory browser, for running the model

    It plays the part of the fake Pepper interface of the unit tests: file
    references are handed out in sequence, entries are a table from full
    path to file type. *)
Module Fake.

Definition PP_ERROR_FILENOTFOUND : Z := -20.
Definition PP_ERROR_FILEEXISTS : Z := -21.

Record FakeWorld := {
  main_thread : bool;
  open_result : Z;
  filesystems : list PP_Resource;
  next_resource : PP_Resource;
  filerefs : list (PP_Resource * string);
  entries : list (string * Z)
}.

Definition lookup {A} (eqb : A -> A -> bool) {B} (k : A) (l : list (A * B))
  : option B :=
  option_map snd (find (fun kv => eqb k (fst kv)) l).

Definition erase (path : string) (l : list (string * Z)) : list (string * Z) :=
  filter (fun kv => negb (path =? fst kv)%string) l.

Definition with_entries (es : list (string * Z)) (w : FakeWorld) : FakeWorld :=
  {| main_thread := main_thread w; open_result := open_result w;
     filesystems := filesystems w; next_resource := next_resource w;
     filerefs := filerefs w; entries := es |}.

(** What the browser reads through the pointer: this fake finds the bytes
    of a destroyed buffer still in place. *)
Definition chars (p : CharPtr) : string :=
  match p with Live s => s | Dangling s => s end.

Definition fake_FileSystem_Create (_ : PP_Instance) (_ : PP_FileSystemType)
           (w : FakeWorld) : PP_Resource * FakeWorld :=
  (next_resource w,
   {| main_thread := main_thread w; open_result := open_result w;
      filesystems := next_resource w :: filesystems w;
      next_resource := next_resource w + 1;
      filerefs := filerefs w; entries := entries w |}).

Definition fake_FileRef_Create (fs : PP_Resource) (p : CharPtr)
           (w : FakeWorld) : PP_Resource * FakeWorld :=
  if existsb (Z.eqb fs) (filesystems w) && prefix "/" (chars p) then
    (next_resource w,
     {| main_thread := main_thread w; open_result := open_result w;
        filesystems := filesystems w;
        next_resource := next_resource w + 1;
        filerefs := (next_resource w, chars p) :: filerefs w;
        entries := entries w |})
  else (0, w).

Definition type_of (r : PP_Resource) (w : FakeWorld) : option (string * Z) :=
  match lookup Z.eqb r (filerefs w) with
  | Some path =>
      match lookup String.eqb path (entries w) with
      | Some t => Some (path, t)
      | None => None
      end
  | None => None
  end.

Definition fake_Query (r : PP_Resource) (w : FakeWorld) : (Z * Z) * FakeWorld :=
  match type_of r w with
  | Some (_, t) => ((PP_OK, t), w)
  | None => ((PP_ERROR_FILENOTFOUND, 0), w)
  end.

Definition fake_MakeDirectory (r : PP_Resource) (_ : bool) (w : FakeWorld)
  : Z * FakeWorld :=
  match lookup Z.eqb r (filerefs w) with
  | Some path =>
      match lookup String.eqb path (entries w) with
      | Some _ => (PP_ERROR_FILEEXISTS, w)
      | None =>
          (PP_OK, with_entries ((path, PP_FILETYPE_DIRECTORY) :: entries w) w)
      end
  | None => (PP_ERROR_FAILED, w)
  end.

Definition fake_Delete (r : PP_Resource) (w : FakeWorld) : Z * FakeWorld :=
  match type_of r w with
  | Some (path, _) => (PP_OK, with_entries (erase path (entries w)) w)
  | None => (PP_ERROR_FILENOTFOUND, w)
  end.

Definition fake_Rename (r r' : PP_Resource) (w : FakeWorld) : Z * FakeWorld :=
  match type_of r w, lookup Z.eqb r' (filerefs w) with
  | Some (path, t), Some path' =>
      (PP_OK,
       with_entries ((path', t) :: erase path' (erase path (entries w))) w)
  | _, _ => (PP_ERROR_FILENOTFOUND, w)
  end.

(** Modelled from the spec: the translation table [PPErrorToErrno] lives
    in another translation unit.  Of the table only the two ends are
    fixed here: success stays success, and a code without an entry falls
    back to a generic I/O error. *)
Definition fake_PPErrorToErrno (result : Z) : Error :=
  if (result =? PP_OK) || (result =? PP_OK_COMPLETIONPENDING) then 0 else EIO.

#[export] Instance pepper : PepperInterface := {|
  World := FakeWorld;
  GetInstance := 1;
  PPErrorToErrno := fake_PPErrorToErrno;
  IsMainThread := fun w => (main_thread w, w);
  AddRefResource := fun _ w => w;
  IsFileSystem := fun r w => (existsb (Z.eqb r) (filesystems w), w);
  FileSystem_Create := fake_FileSystem_Create;
  FileSystem_Open := fun _ _ with_callback w =>
    (if with_callback then PP_OK_COMPLETIONPENDING else open_result w, w);
  FileRef_Create := fake_FileRef_Create;
  FileRef_Query := fake_Query;
  FileRef_MakeDirectory := fake_MakeDirectory;
  FileRef_Delete := fake_Delete;
  FileRef_Rename := fake_Rename
|}.

(** The node initializes when its entry exists. *)
#[export] Instance node : NodeInterface := {|
  Html5FsNode_Init := fun n _ w =>
    match type_of (fileref_resource_ n) w with
    | Some _ => (0, w)
    | None => (ENOENT, w)
    end
|}.

(** Modelled from the spec: [Path] lives in another translation unit.  A
    full path is the prefix followed by the logical path; the root is
    ["/"]. *)
#[export] Instance path : PathInterface := {|
  Path := string;
  Path_Prepend := fun prefix p => (prefix ++ p)%string;
  Path_Join := fun p => p;
  Path_IsRoot := fun p => (p =? "/")%string
|}.

#[export] Instance base : FilesystemBase := {|
  Filesystem_Init := fun _ => 0
|}.

(** A browser with one directory and one file below the prefix [/saved],
    and with resource 5 a filesystem that is already open. *)
Definition browser (on_main_thread : bool) (result : Z) : FakeWorld :=
  {| main_thread := on_main_thread;
     open_result := result;
     filesystems := [5];
     next_resource := 10;
     filerefs := [];
     entries := [("/saved/data", PP_FILETYPE_DIRECTORY);
                 ("/saved/data/a.txt", PP_FILETYPE_REGULAR);
                 ("/saved/dev", PP_FILETYPE_OTHER)] |}.

Definition boot (on_main_thread : bool) (result : Z) : Machine :=
  {| self := Html5Fs_new;
     world := browser on_main_thread result;
     calls := [] |}.

Definition mount_args (m : StringMap_t) : FsInitArgs :=
  {| dev := 1; ppapi := true; string_map := m |}.

(** The state and the call log after running [c] from [m0]; [None] when
    the caller is still waiting. *)
Definition after {A} (c : M A) (m0 : option Machine) : option Machine :=
  match m0 with
  | Some m => option_map snd (c m)
  | None => None
  end.

(** Mounted on the main thread with prefix [/saved]; the completion
    callback then delivers [result]. *)
Definition mounted (result : Z) : option Machine :=
  after (FilesystemOpenCallback result)
    (after (Init (mount_args [("SOURCE", "/saved")])) (Some (boot true PP_OK))).

(** Logical paths of a client. *)
Definition root : Path := "/".
Definition data : Path := "/data".
Definition a_txt : Path := "/data/a.txt".
Definition b_txt : Path := "/b".
Definition relative : Path := "data".
Definition new_dir : Path := "/new".
Definition missing : Path := "/none".

(** The machine after a mount whose open succeeded, and after one whose
    open failed. *)
Definition machine_of (m : option Machine) : Machine :=
  match m with
  | Some m => m
  | None => boot true PP_OK
  end.

Definition ready_machine : Machine := machine_of (mounted PP_OK).
Definition failed_machine : Machine := machine_of (mounted PP_ERROR_FAILED).

(** Mounted off the main thread, without prefix: the open is a blocking
    call and resolves the gate at once. *)
Definition unprefixed_machine : Machine :=
  machine_of (after (Init (mount_args [])) (Some (boot false PP_OK))).

(** One call of each operation, and a shorter sequence. *)
Definition every_operation : list Operation :=
  [OpAccess data 0; OpOpen a_txt O_RDONLY; OpMkdir "/new" 493; OpRmdir data;
   OpUnlink a_txt; OpRemove data; OpRename a_txt b_txt].

Definition some_operations : list Operation :=
  [OpUnlink a_txt; OpMkdir root 493; OpRename data "/d"].


Definition open_handle : StringMap_t :=
  [("SOURCE", "/saved"); ("filesystem_resource", "5")].

Definition stale_handle : StringMap_t :=
  [("filesystem_resource", "7")].

(** A mount without Pepper interface. *)
Definition without_pepper (m : StringMap_t) : FsInitArgs :=
  {| dev := 1; ppapi := false; string_map := m |}.

(** A configuration that supplies the open filesystem 5, then names an
    unknown type; its keys are in the order of the map. *)
Definition handle_then_bad_type : StringMap_t :=
  [("filesystem_resource", "5"); ("type", "BAD")].

(** Mounted on the main thread, the completion callback still to come. *)
Definition waiting_machine : Machine :=
  machine_of (after (Init (mount_args [("SOURCE", "/saved")]))
                    (Some (boot true PP_OK))).

(** A browser out of filesystems: creation yields the null resource. *)
Definition exhausted (on_main_thread : bool) : Machine :=
  {| self := Html5Fs_new;
     world := {| main_thread := on_main_thread; open_result := PP_OK;
                 filesystems := []; next_resource := 0;
                 filerefs := []; entries := [] |};
     calls := [] |}.

(** A temporary filesystem of 4096 bytes below [/saved]. *)
Definition temporary_4k : StringMap_t :=
  [("SOURCE", "/saved"); ("expected_size", "4096"); ("type", "TEMPORARY")].

End Fake.

(** * Properties *)

Section Properties.
Context {PI : PathInterface} {PP : PepperInterface}
        {NI : NodeInterface} {FB : FilesystemBase}.

Lemma bind_Some {A B} (c : M A) (k : A -> M B) m a m' :
  c m = Some (a, m') -> bind c k m = k a m'.
Proof. intros E. unfold bind. now rewrite E. Qed.

Lemma nonzero_true x : x <> 0 -> nonzero x = true.
Proof. intros H. unfold nonzero. now apply negb_true_iff, Z.eqb_neq. Qed.

Lemma nonzero_true_inv x : nonzero x = true -> x <> 0.
Proof. unfold nonzero. intros H. now apply negb_true_iff, Z.eqb_neq in H. Qed.

Lemma nonzero_false x : nonzero x = false -> x = 0.
Proof. unfold nonzero. intros H. now apply negb_false_iff, Z.eqb_eq in H. Qed.

Lemma logged_nil (m : Machine) : logged m (world m) [] = m.
Proof. destruct m. unfold logged. simpl. now rewrite app_nil_r. Qed.

Lemma logged_logged (m : Machine) w cs w' cs' :
  logged (logged m w cs) w' cs' = logged m w' (cs ++ cs').
Proof. unfold logged. simpl. now rewrite app_assoc. Qed.

Lemma ppapi_call_run {A} (c : PPCall) (f : World -> A * World) m a w :
  f (world m) = (a, w) -> ppapi_call c f m = Some (a, logged m w [c]).
Proof. intros E. unfold ppapi_call. now rewrite E. Qed.

(** *** The gate *)

Lemma BlockUntilFilesystemOpen_resolved m :
  resolved m ->
  BlockUntilFilesystemOpen m = Some (filesystem_open_error_ (self m), m).
Proof.
  unfold resolved, BlockUntilFilesystemOpen, bind, this. intros ->. reflexivity.
Qed.

Lemma BlockUntilFilesystemOpen_unresolved m :
  filesystem_open_has_result_ (self m) = false ->
  BlockUntilFilesystemOpen m = None.
Proof.
  unfold BlockUntilFilesystemOpen, bind, this. intros ->. reflexivity.
Qed.

(** Rewrites the gate test at the head of a member function. *)
Ltac pass_gate R :=
  match goal with
  | |- context [bind BlockUntilFilesystemOpen ?k ?m] =>
      rewrite (bind_Some BlockUntilFilesystemOpen k m _ m
                 (BlockUntilFilesystemOpen_resolved m R))
  end.

Section GateFailed.
Variable m : Machine.
Hypothesis R : resolved m.
Hypothesis F : filesystem_open_error_ (self m) <> 0.

Let e := filesystem_open_error_ (self m).

Lemma Open_gate_failed path open_flags out_node :
  Open path open_flags out_node m = Some ((e, None), m).
Proof.
  unfold Open. pass_gate R. now rewrite (nonzero_true _ F).
Qed.

Lemma Mkdir_gate_failed path permissions :
  Mkdir path permissions m = Some (e, m).
Proof.
  unfold Mkdir. pass_gate R. now rewrite (nonzero_true _ F).
Qed.

Lemma RemoveInternal_gate_failed path remove_type :
  RemoveInternal path remove_type m = Some (e, m).
Proof.
  unfold RemoveInternal. pass_gate R. now rewrite (nonzero_true _ F).
Qed.

Lemma Rename_gate_failed path newpath :
  Rename path newpath m = Some (e, m).
Proof.
  unfold Rename. pass_gate R. now rewrite (nonzero_true _ F).
Qed.

Lemma perform_gate_failed op : perform op m = Some (e, m).
Proof.
  destruct op; simpl; unfold Access, Rmdir, Unlink, Remove;
    try apply Mkdir_gate_failed;
    try apply RemoveInternal_gate_failed;
    try apply Rename_gate_failed;
    now rewrite (bind_Some _ _ _ _ _ (Open_gate_failed _ _ _)).
Qed.

End GateFailed.

(** C1.  Once the gate has been resolved with a failure, every operation
    (access, open, mkdir, rmdir, unlink, remove, rename) returns the stored
    error and leaves the object, the browser and the call log as they
    were: no reference is created, nothing is queried, created, deleted or
    renamed.  The statement is about an arbitrary sequence of calls, so it
    holds for every later call as well. *)
Theorem gate_failure_short_circuits (m : Machine) (ops : list Operation) :
  resolved m ->
  filesystem_open_error_ (self m) <> 0 ->
  perform_all ops m =
    Some (repeat (filesystem_open_error_ (self m)) (length ops), m).
Proof.
  intros R F. induction ops as [| op ops IH]; simpl.
  - reflexivity.
  - rewrite (bind_Some _ _ _ _ _ (perform_gate_failed m R F op)).
    now rewrite (bind_Some _ _ _ _ _ IH).
Qed.

(** *** Operations on a resolved gate return, and only extend the log *)

Lemma bind_this {A} (k : Html5Fs -> M A) m : bind this k m = k (self m) m.
Proof. reflexivity. Qed.

Lemma bind_ret {A B} (a : A) (k : A -> M B) m : bind (ret a) k m = k a m.
Proof. reflexivity. Qed.

Lemma bind_GetFullPath {A} path (k : Path -> M A) m :
  bind (GetFullPath path) k m = k (Path_Prepend (prefix_ (self m)) path) m.
Proof. reflexivity. Qed.

Lemma bind_bind {A B C} (c : M A) (k : A -> M B) (k' : B -> M C) m :
  bind (bind c k) k' m = bind c (fun a => bind (k a) k') m.
Proof. unfold bind. destruct (c m) as [[a m'] |]; reflexivity. Qed.

Lemma self_logged (m : Machine) w cs : self (logged m w cs) = self m.
Proof. reflexivity. Qed.

Lemma world_logged (m : Machine) w cs : world (logged m w cs) = w.
Proof. reflexivity. Qed.

(** Symbolic execution.  The goal is kept in the shape [P (c m)], with [P]
    a local definition standing for what is to be shown of the outcome of
    the computation [c] from the machine [m]. *)
Ltac focus c :=
  pattern c;
  match goal with
  | |- ?F c => let P := fresh "Post" in set (P := F)
  end.

Ltac unfocus :=
  match goal with
  | P := _ |- ?P' _ => constr_eq P P'; subst P; cbv beta
  end.

(** One statement of a member function: the gate is passed with the
    hypothesis at hand, a call towards the browser is named by its answer,
    a condition is split. *)
Ltac known_conditions :=
  repeat match goal with
         | H : ?x <> 0 |- context [nonzero ?x] => rewrite (nonzero_true x H)
         | H : ?x = 0 |- context [nonzero ?x] =>
             rewrite H; change (nonzero 0) with false
         | H : ?b = true |- context [if ?b then _ else _] => rewrite H
         | H : ?b = false |- context [if ?b then _ else _] => rewrite H
         end;
  cbn [negb].

Ltac step :=
  rewrite ?self_logged, ?world_logged; known_conditions; cbv beta iota;
  match goal with
  | R : resolved ?m |- _ (bind BlockUntilFilesystemOpen ?k ?m) =>
      rewrite (bind_Some BlockUntilFilesystemOpen k m _ m
                 (BlockUntilFilesystemOpen_resolved m R))
  | |- _ (bind (bind _ _) _ _) => rewrite bind_bind
  | |- _ (bind (if ?b then _ else _) _ _) => destruct b eqn:?
  | |- _ (bind this _ _) => rewrite bind_this
  | |- _ (bind (ret _) _ _) => rewrite bind_ret
  | |- _ (bind (GetFullPath _) _ _) => rewrite bind_GetFullPath
  | H : ?f _ = (?a, ?w) |- _ (bind (ppapi_call ?c ?f) ?k ?m) =>
      rewrite (bind_Some (ppapi_call c f) k m a (logged m w [c])
                 (ppapi_call_run c f m a w H))
  | |- _ (bind (ppapi_call ?c ?f) ?k ?m) =>
      let a := fresh "a" in
      let w := fresh "w" in
      let E := fresh "E" in
      destruct (f (world m)) as [a w] eqn:E;
      rewrite (bind_Some (ppapi_call c f) k m a (logged m w [c])
                 (ppapi_call_run c f m a w E))
  | |- _ ((if ?b then _ else _) _) => destruct b eqn:?
  | |- _ ((match ?x with Some _ => _ | None => _ end) _) => destruct x eqn:?
  end.

Ltac run_model :=
  unfold Access, Open, Mkdir, Unlink, Rmdir, Remove, RemoveInternal, Rename,
    c_str, end_of_full_expression;
  repeat step;
  unfocus; unfold ret; rewrite ?logged_logged; cbn [app fst snd].

Ltac returns_logged m :=
  first [ do 3 eexists; reflexivity
        | eexists; exists (world m), []; rewrite logged_nil; reflexivity ].

Lemma perform_runs (m : Machine) (op : Operation) :
  resolved m ->
  exists e w cs, perform op m = Some (e, logged m w cs).
Proof.
  intros R. focus (perform op m).
  destruct op; cbn [perform]; run_model; returns_logged m.
Qed.

Lemma perform_all_runs (ops : list Operation) (m : Machine) :
  resolved m ->
  exists es w cs, perform_all ops m = Some (es, logged m w cs).
Proof.
  revert m. induction ops as [| op ops IH]; intros m R; cbn [perform_all].
  - exists [], (world m), []. now rewrite logged_nil.
  - destruct (perform_runs m op R) as (e & w & cs & E).
    rewrite (bind_Some _ _ _ _ _ E).
    destruct (IH (logged m w cs) R) as (es & w' & cs' & E').
    rewrite (bind_Some _ _ _ _ _ E'), logged_logged.
    now exists (e :: es), w', (cs ++ cs').
Qed.

(** C3, as the code has it.  Once the gate has been resolved, none of the
    operations and no call of [BlockUntilFilesystemOpen] changes the stored
    outcome: after any sequence of operations, which all return, a caller
    of [BlockUntilFilesystemOpen] gets the outcome stored before them and
    leaves the machine as it is.  A second resolution is not guarded
    against: when the completion callback runs again, a caller gets the
    translation of the result that run delivers. *)
Theorem gate_outcome_stable (m : Machine) (ops : list Operation) :
  resolved m ->
  (exists es m',
      perform_all ops m = Some (es, m') /\
      self m' = self m /\
      BlockUntilFilesystemOpen m' =
        Some (filesystem_open_error_ (self m), m')) /\
  (forall result,
      exists m',
        FilesystemOpenCallback result m = Some (tt, m') /\
        world m' = world m /\ calls m' = calls m /\
        BlockUntilFilesystemOpen m' = Some (PPErrorToErrno result, m')).
Proof.
  intros R. split.
  - destruct (perform_all_runs ops m R) as (es & w & cs & E).
    exists es, (logged m w cs). repeat split; [exact E |].
    now rewrite (BlockUntilFilesystemOpen_resolved (logged m w cs) R).
  - intros result. eexists. repeat split.
Qed.

(** C4, as the code has it.  For every permissions argument, [Mkdir] on the
    root path returns [EEXIST] when the gate has been resolved to success,
    and the stored error when it has been resolved to a failure; in both
    cases nothing is asked of the browser. *)
Theorem Mkdir_root (m : Machine) (path : Path) (permissions : Z) :
  resolved m ->
  Path_IsRoot path = true ->
  Mkdir path permissions m =
    Some (if nonzero (filesystem_open_error_ (self m))
          then filesystem_open_error_ (self m)
          else EEXIST, m).
Proof.
  intros R Root. unfold Mkdir.
  rewrite (bind_Some _ _ _ _ _ (BlockUntilFilesystemOpen_resolved m R)).
  destruct (nonzero _); [reflexivity |]. now rewrite Root.
Qed.

(** C9.  [Access] is the existence probe of the specification: it returns
    what [Open] with [O_RDONLY] returns, whatever the caller's slot held,
    leaves the browser and the log in the same state, and does not depend
    on its mode argument. *)
Theorem Access_is_existence_probe (m : Machine) (path : Path) (a_mode : Z) :
  Access path a_mode m = existence_probe path m /\
  (forall out_node,
      Access path a_mode m =
        option_map (fun r => (fst (fst r), snd r))
                   (Open path O_RDONLY out_node m)) /\
  (forall a_mode', Access path a_mode' m = Access path a_mode m).
Proof.
  assert (E : Access path a_mode m = existence_probe path m).
  { unfold Access, existence_probe, bind, ret.
    destruct (Open path O_RDONLY None m) as [[[e n] m'] |]; reflexivity. }
  repeat split; [exact E | intros out_node; exact E].
Qed.

(** C10.  [Open] forgets what the caller's slot held; when it returns an
    error the slot holds no node, and the slot holds a node exactly when
    [Open] returns 0.  [Open] fails to return only while the gate is
    unresolved. *)
Theorem Open_out_node (m : Machine) (path : Path) (open_flags : Z)
        (out_node : ScopedNode) :
  Open path open_flags out_node m = Open path open_flags None m /\
  match Open path open_flags out_node m with
  | Some ((error, node), _) =>
      (error <> 0 -> node = None) /\ (node <> None <-> error = 0)
  | None => filesystem_open_has_result_ (self m) = false
  end.
Proof.
  split; [reflexivity |].
  destruct (filesystem_open_has_result_ (self m)) eqn:R.
  - change (resolved m) in R. focus (Open path open_flags out_node m).
    run_model.
    + apply nonzero_true_inv in Heqb. intuition congruence.
    + unfold ENOENT. intuition congruence.
    + apply nonzero_true_inv in Heqb1. intuition congruence.
    + intuition congruence.
  - unfold Open, bind at 1.
    now rewrite (BlockUntilFilesystemOpen_unresolved m R).
Qed.

(** *** Removal *)

(** Identifies the answers named by [step] with the ones the statement
    names. *)
Ltac same_answers :=
  repeat match goal with
         | H : ?t = (_, _), E : ?t = (_, _) |- _ =>
             rewrite H in E; inversion E; subst; clear E
         end.

(** Settles the conditions met on the way against the facts at hand. *)
Ltac settle :=
  repeat match goal with
         | H : nonzero _ = true |- _ => apply nonzero_true_inv in H
         | H : nonzero _ = false |- _ => apply nonzero_false in H
         | H : negb _ = true |- _ => apply negb_true_iff in H
         | H : negb _ = false |- _ => apply negb_false_iff in H
         | H : (_ =? _) = true |- _ => apply Z.eqb_eq in H
         | H : (_ =? _) = false |- _ => apply Z.eqb_neq in H
         end;
  cbn [fst snd] in *; subst;
  first [ reflexivity
        | congruence
        | exfalso;
          unfold REMOVE_ALL, REMOVE_DIR, REMOVE_FILE, PP_OK,
            PP_FILETYPE_DIRECTORY, PP_FILETYPE_REGULAR in *;
          simpl in *; first [ lia | congruence | intuition lia ]
        | idtac ].

Section Removal.
Variables (m : Machine) (path : Path).
Variables (r : PP_Resource) (w1 : World).
Hypothesis Ready : ready m.
Hypothesis Created :
  FileRef_Create (filesystem_resource_ (self m))
                 (c_str (full_path_string (self m) path)) (world m) = (r, w1).
Hypothesis Valid : r <> 0.

Let create : PPCall :=
  CallFileRefCreate (filesystem_resource_ (self m))
                    (Live (full_path_string (self m) path)).

Lemma RemoveInternal_restricted remove_type q t w2 :
  remove_type = REMOVE_FILE \/ remove_type = REMOVE_DIR ->
  FileRef_Query r w1 = ((q, t), w2) ->
  (q <> PP_OK ->
   RemoveInternal path remove_type m =
     Some (EINVAL, logged m w2 [create; CallQuery r])) /\
  (q = PP_OK -> t <> PP_FILETYPE_DIRECTORY -> t <> PP_FILETYPE_REGULAR ->
   RemoveInternal path remove_type m =
     Some (EINVAL, logged m w2 [create; CallQuery r])) /\
  (q = PP_OK -> t = PP_FILETYPE_DIRECTORY -> remove_type = REMOVE_FILE ->
   RemoveInternal path remove_type m =
     Some (EISDIR, logged m w2 [create; CallQuery r])) /\
  (q = PP_OK -> t = PP_FILETYPE_REGULAR -> remove_type = REMOVE_DIR ->
   RemoveInternal path remove_type m =
     Some (ENOTDIR, logged m w2 [create; CallQuery r])).
Proof.
  intros Mask Queried. destruct Ready as [R Ok].
  unfold full_path_string, c_str in *.
  repeat split; intros; destruct Mask; subst;
    match goal with |- ?c = _ => focus c end; run_model; same_answers.
  all: settle.
Qed.

Lemma Remove_unrestricted d w3 :
  FileRef_Delete r w1 = (d, w3) ->
  Remove path m =
    Some (if negb (d =? PP_OK) then PPErrorToErrno d else 0,
          logged m w3 [create; CallDelete r]).
Proof.
  intros Deleted. destruct Ready as [R Ok].
  unfold full_path_string, c_str in *.
  focus (Remove path m). run_model; same_answers; settle.
Qed.

End Removal.

(** C2.  Let the gate be open, let the reference of the path's full path
    be obtained, and let the browser answer the type query with result [q]
    and type [t].  Then [Unlink] on a directory returns [EISDIR], [Rmdir]
    on a regular file returns [ENOTDIR], both return [EINVAL] on any other
    type and on a failed query, all of these after the query and without a
    delete request; [Remove] issues the delete request right after the
    reference was created, without a query, and returns its translated
    result. *)
Theorem remove_class_policy (m : Machine) (path : Path)
        (r : PP_Resource) (w1 : World) (q t : Z) (w2 : World)
        (d : Z) (w3 : World) :
  ready m ->
  FileRef_Create (filesystem_resource_ (self m))
                 (c_str (full_path_string (self m) path)) (world m) = (r, w1) ->
  r <> 0 ->
  FileRef_Query r w1 = ((q, t), w2) ->
  FileRef_Delete r w1 = (d, w3) ->
  let create := CallFileRefCreate (filesystem_resource_ (self m))
                                  (Live (full_path_string (self m) path)) in
  let queried := logged m w2 [create; CallQuery r] in
  (q = PP_OK -> t = PP_FILETYPE_DIRECTORY ->
   Unlink path m = Some (EISDIR, queried)) /\
  (q = PP_OK -> t = PP_FILETYPE_REGULAR ->
   Rmdir path m = Some (ENOTDIR, queried)) /\
  (q = PP_OK -> t <> PP_FILETYPE_DIRECTORY -> t <> PP_FILETYPE_REGULAR ->
   Unlink path m = Some (EINVAL, queried) /\
   Rmdir path m = Some (EINVAL, queried)) /\
  (q <> PP_OK ->
   Unlink path m = Some (EINVAL, queried) /\
   Rmdir path m = Some (EINVAL, queried)) /\
  Remove path m =
    Some (if negb (d =? PP_OK) then PPErrorToErrno d else 0,
          logged m w3 [create; CallDelete r]).
Proof.
  intros Ready Created Valid Queried Deleted create queried.
  pose proof (RemoveInternal_restricted m path r w1 Ready Created Valid
                REMOVE_FILE q t w2 (or_introl eq_refl) Queried)
    as (F1 & F2 & F3 & _).
  pose proof (RemoveInternal_restricted m path r w1 Ready Created Valid
                REMOVE_DIR q t w2 (or_intror eq_refl) Queried)
    as (D1 & D2 & _ & D4).
  unfold Unlink, Rmdir. repeat split; auto.
  apply (Remove_unrestricted m path r w1 Ready Created Valid d w3 Deleted).
Qed.

(** *** Renaming *)


(** *** The path handed to the browser *)

Ltac creations :=
  do 3 eexists; split; [reflexivity |];
  let f := fresh "f" in
  let p := fresh "p" in
  let I := fresh "I" in
  intros f p I; cbn [In] in I;
  repeat match goal with
         | I : _ \/ _ |- _ => destruct I as [I | I]
         end;
  try contradiction; try discriminate;
  inversion I; subst;
  (split; [reflexivity |]);
  (eexists; split; [| reflexivity]);
  cbn [paths_of In]; auto.

(** With the gate resolved, every operation but [Rename] hands the browser
    the live string of the full path of its logical path. *)
Lemma create_reference_gets_full_path (m : Machine) (op : Operation) :
  resolved m ->
  is_rename op = false ->
  exists e w cs,
    perform op m = Some (e, logged m w cs) /\
    forall f p, In (CallFileRefCreate f p) cs ->
      f = filesystem_resource_ (self m) /\
      exists q, In q (paths_of op) /\ p = Live (full_path_string (self m) q).
Proof.
  intros R NotRename. unfold full_path_string.
  focus (perform op m).
  destruct op; try discriminate; cbn [perform]; run_model.
  all: try creations.
  all: eexists; exists (world m), [];
       rewrite logged_nil; split; [reflexivity | intros ? ? []].
Qed.

(** C5, at [Rename].  With the gate open, the first request [Rename] makes
    is the creation of a reference for the old path, and it carries a
    pointer into the temporary string of the full path after that string
    was destroyed; every later reference creation carries such a pointer
    for the new path.  The browser is never handed the live string, which
    is what the other operations hand over. *)
Theorem Rename_hands_over_dangling_paths (m : Machine) (path newpath : Path) :
  ready m ->
  exists e w cs,
    Rename path newpath m =
      Some (e, logged m w
                 (CallFileRefCreate (filesystem_resource_ (self m))
                    (Dangling (full_path_string (self m) path)) :: cs)) /\
    forall f p, In (CallFileRefCreate f p) cs ->
      p = Dangling (full_path_string (self m) newpath).
Proof.
  intros [R Ok]. unfold full_path_string.
  focus (Rename path newpath m). run_model.
  all: do 3 eexists; (split; [reflexivity |]).
  all: intros f p I; cbn [In] in I.
  all: repeat match goal with
              | I : _ \/ _ |- _ => destruct I as [I | I]
              end;
       try contradiction; try discriminate.
  all: now inversion I.
Qed.

(** *** Initialization *)

Lemma parse_effect_refl (m : Machine) : parse_effect m m [].
Proof. unfold parse_effect. now rewrite app_nil_r. Qed.

Lemma parse_effect_trans (m m' m'' : Machine) cs cs' :
  parse_effect m m' cs -> parse_effect m' m'' cs' ->
  parse_effect m m'' (cs ++ cs').
Proof.
  intros (C & V & H & E) (C' & V' & H' & E'). unfold parse_effect.
  rewrite C', C, app_assoc, forallb_app, V, V'. repeat split; congruence.
Qed.

Lemma rejected_entry_pair (k v : string) :
  rejected_entry (k, v) =
    (negb ((k =? "type") || (k =? "expected_size") ||
           (k =? "filesystem_resource") || (k =? "SOURCE")) ||
     ((k =? "type") &&
      negb ((v =? "PERSISTENT") || (v =? "TEMPORARY") || (v =? ""))))%string.
Proof. reflexivity. Qed.

Lemma names_resource_pair (k v : string) :
  names_resource (k, v) = (k =? "filesystem_resource")%string.
Proof. reflexivity. Qed.

(** Splits on the key, and for [type] on the value, of the entry at the
    head of the map, in the order of the tests of the loop. *)
Ltac key_cases first second :=
  cbn [existsb parse_args map];
  rewrite ?rejected_entry_pair, ?names_resource_pair;
  destruct (String.eqb_spec first "type") as [-> | ?];
  [ destruct (String.eqb_spec second "PERSISTENT") as [-> | ?];
    [ | destruct (String.eqb_spec second "TEMPORARY") as [-> | ?];
        [ | destruct (String.eqb_spec second "") as [-> | ?] ] ]
  | destruct (String.eqb_spec first "expected_size") as [-> | ?];
    [ | destruct (String.eqb_spec first "filesystem_resource") as [-> | ?];
        [ | destruct (String.eqb_spec first "SOURCE") as [-> | ?] ] ] ];
  cbn [String.eqb Ascii.eqb Bool.eqb orb andb negb].

Lemma parse_args_runs (string_map : StringMap_t) :
  forall filesystem_type expected_size (m : Machine),
  exists r m' cs,
    parse_args string_map filesystem_type expected_size m = Some (r, m') /\
    parse_effect m m' cs /\
    (forall e, r = inl e -> e = EINVAL) /\
    (existsb rejected_entry string_map = true -> r = inl EINVAL) /\
    (existsb names_resource string_map = false ->
     cs = [] /\ world m' = world m /\
     filesystem_resource_ (self m') = filesystem_resource_ (self m)).
Proof.
  induction string_map as [| [first second] rest IH];
    intros filesystem_type expected_size m.
  - exists (inr (filesystem_type, expected_size)), m, [].
    repeat split; try discriminate. apply parse_effect_refl.
  - key_cases first second.
    all: try (eexists (inl EINVAL), m, []; repeat split;
              [apply parse_effect_refl | congruence]).
    all: try (match goal with
              | IH : forall ft es m, exists _, _
                |- context [parse_args _ ?ft ?es ?m = _] =>
                  destruct (IH ft es m)
                    as (r & m' & cs & E & Eff & Inl & Rej & Plain)
              end; now exists r, m', cs).
    + (* filesystem_resource *)
      unfold bind, ppapi_call, assign.
      destruct (IsFileSystem (to_int32 (strtoull second)) (world m))
        as [[|] w]; cbn [negb self world calls].
      * match goal with
        | |- context [parse_args _ ?ft ?es ?m1 = _] =>
            destruct (IH ft es m1) as (r & m' & cs & E & Eff & Inl & Rej & _)
        end.
        exists r, m', ([CallIsFileSystem (to_int32 (strtoull second));
                        CallAddRefResource (to_int32 (strtoull second))] ++ cs).
        split; [exact E |]. split.
        { eapply parse_effect_trans; [| exact Eff].
          unfold parse_effect. cbn [self world calls set_filesystem_resource].
          now rewrite <- app_assoc. }
        repeat split; try discriminate; auto.
      * eexists (inl EINVAL), _,
          [CallIsFileSystem (to_int32 (strtoull second))].
        split; [reflexivity |]. split; [now unfold parse_effect |].
        repeat split; try discriminate; congruence.
    + (* SOURCE *)
      unfold bind, assign.
      match goal with
      | |- context [parse_args _ ?ft ?es ?m1 = _] =>
          destruct (IH ft es m1) as (r & m' & cs & E & Eff & Inl & Rej & Plain)
      end.
      exists r, m', cs.
      split; [exact E |]. split; [exact Eff |]. repeat split; auto;
        apply Plain; assumption.
Qed.

(** Entries other than [filesystem_resource], all accepted: the loop runs
    to its end, touching nothing but the prefix. *)
Lemma parse_args_plain (string_map : StringMap_t) :
  forall filesystem_type expected_size (m : Machine),
  existsb names_resource string_map = false ->
  existsb rejected_entry string_map = false ->
  exists filesystem_type' expected_size' p,
    parse_args string_map filesystem_type expected_size m =
      Some (inr (filesystem_type', expected_size'),
            {| self := set_prefix p (self m);
               world := world m; calls := calls m |}).
Proof.
  induction string_map as [| [first second] rest IH];
    intros filesystem_type expected_size m.
  - intros _ _. exists filesystem_type, expected_size, (prefix_ (self m)).
    destruct m as [[] ? ?]. reflexivity.
  - key_cases first second; intros NoRes NoRej; try discriminate.
    all: try (apply IH; assumption).
    unfold bind, assign.
    edestruct IH as (ft' & es' & p & E); [eassumption | eassumption |].
    rewrite E. now exists ft', es', p.
Qed.

Lemma names_resource_absent (string_map : StringMap_t) :
  ~ In "filesystem_resource" (map fst string_map) ->
  existsb names_resource string_map = false.
Proof.
  induction string_map as [| [k v] rest IH]; cbn [map fst In existsb].
  - reflexivity.
  - intros N. rewrite names_resource_pair.
    destruct (String.eqb_spec k "filesystem_resource") as [-> | ?].
    + exfalso. apply N. now left.
    + apply IH. intros I. apply N. now right.
Qed.



Section SuppliedHandle.
Variable v : string.
Let resource := to_int32 (strtoull v).

(** The entry of the supplied handle, met on a machine [m]. *)
Lemma parse_args_resource_head (rest : StringMap_t) filesystem_type
      expected_size (m : Machine) :
  parse_args (("filesystem_resource", v) :: rest)
             filesystem_type expected_size m =
    let '(valid, w) := IsFileSystem resource (world m) in
    if valid then
      parse_args rest filesystem_type expected_size
        {| self := set_filesystem_resource resource (self m);
           world := AddRefResource resource w;
           calls := calls m ++ [CallIsFileSystem resource;
                                CallAddRefResource resource] |}
    else
      Some (inl EINVAL, logged m w [CallIsFileSystem resource]).
Proof.
  cbn [parse_args String.eqb Ascii.eqb Bool.eqb].
  unfold bind, ppapi_call, assign, logged.
  destruct (IsFileSystem _ (world m)) as [[|] w]; cbn [negb self world calls].
  - now rewrite <- app_assoc.
  - reflexivity.
Qed.

Lemma parse_args_valid_resource (string_map : StringMap_t) :
  forall filesystem_type expected_size (m : Machine) w1,
  NoDup (map fst string_map) ->
  existsb rejected_entry string_map = false ->
  In ("filesystem_resource", v) string_map ->
  IsFileSystem resource (world m) = (true, w1) ->
  exists filesystem_type' expected_size' p,
    parse_args string_map filesystem_type expected_size m =
      Some (inr (filesystem_type', expected_size'),
            {| self := set_filesystem_resource resource (set_prefix p (self m));
               world := AddRefResource resource w1;
               calls := calls m ++ [CallIsFileSystem resource;
                                    CallAddRefResource resource] |}).
Proof.
  induction string_map as [| [first second] rest IH];
    intros filesystem_type expected_size m w1 Unique NoRej Here Valid;
    [destruct Here |].
  cbn [map fst] in Unique. apply NoDup_cons_iff in Unique as [Fresh Unique].
  destruct Here as [Head | Later].
  - inversion Head; subst first second; clear Head.
    rewrite parse_args_resource_head, Valid.
    cbn [existsb] in NoRej. apply orb_false_iff in NoRej as [_ NoRej].
    edestruct (parse_args_plain rest) as (ft' & es' & p & E);
      [now apply names_resource_absent | exact NoRej |].
    rewrite E. now exists ft', es', p.
  - assert (first <> "filesystem_resource") as NotRes.
    { intros ->. apply Fresh. now apply (in_map fst) in Later. }
    revert NoRej. key_cases first second; intros NoRej;
      try discriminate; try contradiction.
    all: try (eapply IH; eassumption).
    unfold bind, assign.
    match goal with
    | |- context [parse_args _ ?ft ?es ?m1 = _] =>
        destruct (IH ft es m1 w1 Unique NoRej Later Valid)
          as (ft' & es' & p & E)
    end.
    rewrite E. now exists ft', es', p.
Qed.

Lemma parse_args_invalid_resource (string_map : StringMap_t) :
  forall filesystem_type expected_size (m : Machine) w1,
  NoDup (map fst string_map) ->
  In ("filesystem_resource", v) string_map ->
  IsFileSystem resource (world m) = (false, w1) ->
  exists p w cs,
    parse_args string_map filesystem_type expected_size m =
      Some (inl EINVAL,
            {| self := set_prefix p (self m);
               world := w; calls := calls m ++ cs |}) /\
    (cs = [] /\ w = world m \/ cs = [CallIsFileSystem resource] /\ w = w1).
Proof.
  assert (Same : forall m : Machine,
             m = {| self := set_prefix (prefix_ (self m)) (self m);
                    world := world m; calls := calls m ++ [] |}).
  { intros [[] ? ?]. cbn. now rewrite app_nil_r. }
  induction string_map as [| [first second] rest IH];
    intros filesystem_type expected_size m w1 Unique Here Invalid;
    [destruct Here |].
  cbn [map fst] in Unique. apply NoDup_cons_iff in Unique as [Fresh Unique].
  destruct Here as [Head | Later].
  - inversion Head; subst first second; clear Head.
    rewrite parse_args_resource_head, Invalid.
    exists (prefix_ (self m)), w1, [CallIsFileSystem resource].
    split; [| now right]. destruct m as [[] ? ?]. reflexivity.
  - assert (first <> "filesystem_resource") as NotRes.
    { intros ->. apply Fresh. now apply (in_map fst) in Later. }
    key_cases first second; try contradiction.
    all: try (eapply IH; eassumption).
    all: try (exists (prefix_ (self m)), (world m), [];
              split; [unfold ret; now rewrite <- Same | now left]).
    unfold bind, assign.
    match goal with
    | |- context [parse_args _ ?ft ?es ?m1 = _] =>
        destruct (IH ft es m1 w1 Unique Later Invalid)
          as (p & w & cs & E & Cases)
    end.
    rewrite E. now exists p, w, cs.
Qed.

End SuppliedHandle.

(** C8, as the code has it.  Let the base initialization succeed, the
    Pepper interface be present, and the configuration, a map with one
    entry per key, name a handle under [filesystem_resource].  When the
    browser validates the handle, the handle is not the null resource and
    no entry of the configuration is rejected, [Init] returns 0 with the
    gate resolved to success and the handle installed, after exactly two
    calls: the validation and the retention of the handle; no filesystem is
    created or opened.  When the browser does not validate the handle,
    [Init] returns [EINVAL], the gate is left as it was, and at most the
    validation was called. *)
Theorem Init_with_supplied_handle (args : FsInitArgs) (m : Machine)
        (v : string) (valid : bool) (w1 : World) :
  Filesystem_Init args = 0 ->
  ppapi args = true ->
  NoDup (map fst (string_map args)) ->
  In ("filesystem_resource", v) (string_map args) ->
  let resource := to_int32 (strtoull v) in
  IsFileSystem resource (world m) = (valid, w1) ->
  (valid = true -> resource <> 0 ->
   existsb rejected_entry (string_map args) = false ->
   exists m',
     Init args m = Some (0, m') /\
     ready m' /\
     filesystem_resource_ (self m') = resource /\
     world m' = AddRefResource resource w1 /\
     calls m' = calls m ++ [CallIsFileSystem resource;
                            CallAddRefResource resource]) /\
  (valid = false ->
   exists m' cs,
     Init args m = Some (EINVAL, m') /\
     calls m' = calls m ++ cs /\
     (cs = [] \/ cs = [CallIsFileSystem resource]) /\
     filesystem_open_has_result_ (self m') =
       filesystem_open_has_result_ (self m) /\
     filesystem_open_error_ (self m') = filesystem_open_error_ (self m)).
Proof.
  intros Base Present Unique Here resource Answer. unfold Init.
  rewrite Base, Present. cbn [nonzero Z.eqb negb]. split.
  - intros -> NotNull NoRej.
    destruct (parse_args_valid_resource v (string_map args)
                PP_FILESYSTEMTYPE_LOCALPERSISTENT 0 m w1
                Unique NoRej Here Answer) as (ft' & es' & p & E).
    rewrite (bind_Some _ _ _ _ _ E), bind_this.
    cbn [self set_filesystem_resource filesystem_resource_].
    fold resource. rewrite (nonzero_true _ NotNull).
    eexists. split; [reflexivity |]. now repeat split.
  - intros ->.
    destruct (parse_args_invalid_resource v (string_map args)
                PP_FILESYSTEMTYPE_LOCALPERSISTENT 0 m w1
                Unique Here Answer) as (p & w & cs & E & Cases).
    rewrite (bind_Some _ _ _ _ _ E).
    eexists. exists cs. split; [reflexivity |].
    repeat split. destruct Cases as [[-> _] | [-> _]]; auto.
Qed.

(** * Further properties of the operations *)

(** *** Waiting for the gate *)

(** X1.  While the gate is unresolved no operation returns: whatever the
    operation, its arguments and the state of the browser, the caller
    waits, and so does the caller of a sequence of operations. *)
Theorem operations_wait_for_gate (m : Machine) (op : Operation)
        (ops : list Operation) :
  filesystem_open_has_result_ (self m) = false ->
  perform op m = None /\ perform_all (op :: ops) m = None.
Proof.
  intros U.
  assert (W : perform op m = None).
  { destruct op; cbn [perform];
      unfold Access, Open, Mkdir, Rmdir, Unlink, Remove, RemoveInternal,
        Rename, bind;
      now rewrite (BlockUntilFilesystemOpen_unresolved m U). }
  split; [exact W |]. cbn [perform_all]. unfold bind at 1. now rewrite W.
Qed.

Lemma perform_all_gate_failed (m : Machine) (ops : list Operation) :
  resolved m ->
  filesystem_open_error_ (self m) <> 0 ->
  perform_all ops m =
    Some (repeat (filesystem_open_error_ (self m)) (length ops), m).
Proof.
  intros R F. induction ops as [| op ops IH]; cbn [perform_all repeat length].
  - reflexivity.
  - rewrite (bind_Some _ _ _ _ _ (perform_gate_failed m R F op)).
    now rewrite (bind_Some _ _ _ _ _ IH).
Qed.

(** X2.  The completion callback may find the gate in any state.  It asks
    nothing of the browser; when the result it delivers translates to an
    error, every operation performed afterwards returns that error, and
    none of them reaches the browser. *)
Theorem failed_open_is_reported (m : Machine) (result : Z)
        (ops : list Operation) :
  PPErrorToErrno result <> 0 ->
  exists m',
    FilesystemOpenCallback result m = Some (tt, m') /\
    world m' = world m /\ calls m' = calls m /\
    perform_all ops m' =
      Some (repeat (PPErrorToErrno result) (length ops), m').
Proof.
  intros F.
  set (m' := {| self := resolve_gate (PPErrorToErrno result) (self m);
                world := world m; calls := calls m |}).
  exists m'.
  split; [reflexivity |]. split; [reflexivity |]. split; [reflexivity |].
  exact (perform_all_gate_failed m' ops eq_refl F).
Qed.

(** *** Outcomes of [Open] and [Mkdir] *)

(** X3.  With the gate open, [Open] asks for a reference of the full path
    under the filesystem of the object.  Without a reference it returns
    [ENOENT] and no node is initialized.  With a reference [r] it
    initializes a node on [r] with the flags it was given: an error of the
    initialization is returned as it is, without a node; otherwise 0 is
    returned with the node on [r]. *)
Theorem Open_outcomes (m : Machine) (path : Path) (open_flags : Z)
        (out_node : ScopedNode)
        (r : PP_Resource) (w1 : World) (e : Error) (w2 : World) :
  ready m ->
  FileRef_Create (filesystem_resource_ (self m))
                 (c_str (full_path_string (self m) path)) (world m) = (r, w1) ->
  Html5FsNode_Init {| fileref_resource_ := r |} open_flags w1 = (e, w2) ->
  let create := CallFileRefCreate (filesystem_resource_ (self m))
                                  (Live (full_path_string (self m) path)) in
  let initialized := logged m w2 [create; CallNodeInit r open_flags] in
  (r = 0 ->
   Open path open_flags out_node m =
     Some ((ENOENT, None), logged m w1 [create])) /\
  (r <> 0 -> e <> 0 ->
   Open path open_flags out_node m = Some ((e, None), initialized)) /\
  (r <> 0 -> e = 0 ->
   Open path open_flags out_node m =
     Some ((0, Some {| fileref_resource_ := r |}), initialized)).
Proof.
  intros [R Ok] Created Initialized create initialized.
  unfold full_path_string, c_str in *.
  repeat split; intros;
    focus (Open path open_flags out_node m); run_model; same_answers;
    known_conditions; cbv beta iota; settle.
Qed.

(** X4.  With the gate open and a path other than the root, [Mkdir] asks
    for a reference of the full path.  Without a reference it returns
    [ENOENT] and requests no directory.  With a reference it requests the
    directory without its ancestors, and returns 0 when the browser answers
    [PP_OK] and the translated answer otherwise.  The permissions play no
    part. *)
Theorem Mkdir_outcomes (m : Machine) (path : Path) (permissions : Z)
        (r : PP_Resource) (w1 : World) (result : Z) (w2 : World) :
  ready m ->
  Path_IsRoot path = false ->
  FileRef_Create (filesystem_resource_ (self m))
                 (c_str (full_path_string (self m) path)) (world m) = (r, w1) ->
  FileRef_MakeDirectory r false w1 = (result, w2) ->
  let create := CallFileRefCreate (filesystem_resource_ (self m))
                                  (Live (full_path_string (self m) path)) in
  (r = 0 -> Mkdir path permissions m = Some (ENOENT, logged m w1 [create])) /\
  (r <> 0 ->
   Mkdir path permissions m =
     Some (if negb (result =? PP_OK) then PPErrorToErrno result else 0,
           logged m w2 [create; CallMakeDirectory r false])).
Proof.
  intros [R Ok] NotRoot Created Made create.
  unfold full_path_string, c_str in *.
  repeat split; intros;
    focus (Mkdir path permissions m); run_model; same_answers;
    known_conditions; cbv beta iota; settle.
Qed.

(** *** Removal, continued *)

(** X5.  With the gate open, when the browser yields no reference for the
    full path, [Unlink], [Rmdir] and [Remove] alike, and [RemoveInternal]
    under any mask, return [ENOENT] after that one request: the type is not
    queried and nothing is deleted. *)
Theorem RemoveInternal_without_reference (m : Machine) (path : Path)
        (remove_type : Z) (w1 : World) :
  ready m ->
  FileRef_Create (filesystem_resource_ (self m))
                 (c_str (full_path_string (self m) path)) (world m) = (0, w1) ->
  RemoveInternal path remove_type m =
    Some (ENOENT,
          logged m w1 [CallFileRefCreate (filesystem_resource_ (self m))
                         (Live (full_path_string (self m) path))]).
Proof.
  intros [R Ok] Created. unfold full_path_string, c_str in *.
  focus (RemoveInternal path remove_type m). run_model; same_answers; settle.
Qed.

(** X6.  With the gate open and the reference [r] obtained, [Rmdir] on an
    entry the browser reports as a directory, and [Unlink] on one it
    reports as a regular file, request the deletion of [r] after the query,
    and return 0 when the browser answers [PP_OK] and the translated answer
    otherwise. *)
Theorem restricted_removal_deletes (m : Machine) (path : Path)
        (r : PP_Resource) (w1 : World) (t : Z) (w2 : World)
        (d : Z) (w3 : World) :
  ready m ->
  FileRef_Create (filesystem_resource_ (self m))
                 (c_str (full_path_string (self m) path)) (world m) = (r, w1) ->
  r <> 0 ->
  FileRef_Query r w1 = ((PP_OK, t), w2) ->
  FileRef_Delete r w2 = (d, w3) ->
  let create := CallFileRefCreate (filesystem_resource_ (self m))
                                  (Live (full_path_string (self m) path)) in
  let deleted :=
    Some (if negb (d =? PP_OK) then PPErrorToErrno d else 0,
          logged m w3 [create; CallQuery r; CallDelete r]) in
  (t = PP_FILETYPE_DIRECTORY -> Rmdir path m = deleted) /\
  (t = PP_FILETYPE_REGULAR -> Unlink path m = deleted).
Proof.
  intros [R Ok] Created Valid Queried Deleted create deleted.
  unfold full_path_string, c_str in *.
  split; intros; subst t;
    match goal with |- ?c = _ => focus c end;
    run_model; same_answers; settle.
Qed.

(** *** What a success stands for *)

Lemma success_after_request (m : Machine) (op : Operation) :
  resolved m ->
  is_probe op = false ->
  match perform op m with
  | Some (e, m') =>
      e = 0 ->
      exists cs c,
        calls m' = calls m ++ cs ++ [c] /\
        mutates c = true /\ existsb mutates cs = false
  | None => False
  end.
Proof.
  intros R NotProbe. focus (perform op m).
  destruct op; try discriminate; cbn [perform]; run_model; intros Zero.
  all: try discriminate Zero.
  all: try match goal with
           | H : nonzero ?x = true, E : ?x = 0 |- _ =>
               rewrite E in H; discriminate H
           end.
  all: match goal with
       | |- exists cs c, calls (logged _ _ [?a; ?b; ?c']) = _ /\ _ =>
           exists [a; b], c'
       | |- exists cs c, calls (logged _ _ [?a; ?b]) = _ /\ _ =>
           exists [a], b
       end; repeat split.
Qed.

(** X7.  When an operation that asks for a change ([Mkdir], [Rmdir],
    [Unlink], [Remove], [Rename]) returns 0 on a resolved gate, it has sent
    the browser exactly one changing request (make-directory, delete or
    rename), and every reference it created and every type it queried was
    asked for before that request.  In particular none of them returns 0
    without having reached the browser.  (What the destructors of the
    scoped references release on return is not a request of this kind and
    is not in the log.) *)
Theorem success_follows_one_request (m m' : Machine) (op : Operation) :
  resolved m ->
  is_probe op = false ->
  perform op m = Some (0, m') ->
  exists cs c,
    calls m' = calls m ++ cs ++ [c] /\
    mutates c = true /\ existsb mutates cs = false.
Proof.
  intros R NotProbe E.
  pose proof (success_after_request m op R NotProbe) as S.
  rewrite E in S. now apply S.
Qed.


(** * Further properties of the initialization *)

(** *** The settings of an accepted configuration *)

Lemma setting_absent (k : string) (string_map : StringMap_t) :
  ~ In k (map fst string_map) -> setting k string_map = None.
Proof.
  induction string_map as [| [first second] rest IH]; cbn [map fst In setting].
  - reflexivity.
  - intros N. rewrite IH by tauto.
    destruct (String.eqb_spec first k) as [-> | ?]; [| reflexivity].
    exfalso. apply N. now left.
Qed.

Lemma setting_In (k v : string) (string_map : StringMap_t) :
  NoDup (map fst string_map) ->
  In (k, v) string_map ->
  setting k string_map = Some v.
Proof.
  induction string_map as [| [first second] rest IH];
    cbn [map fst In setting]; [intros _ [] |].
  intros Unique Here. apply NoDup_cons_iff in Unique as [Fresh Unique].
  destruct Here as [Head | Later].
  - inversion Head; subst first second.
    rewrite (setting_absent k rest Fresh). now rewrite String.eqb_refl.
  - now rewrite (IH Unique Later).
Qed.

Lemma configured_type_cons k v rest default :
  configured_type ((k, v) :: rest) default =
    configured_type rest
      (if (k =? "type")%string
       then if (v =? "TEMPORARY")%string
            then PP_FILESYSTEMTYPE_LOCALTEMPORARY
            else PP_FILESYSTEMTYPE_LOCALPERSISTENT
       else default).
Proof.
  unfold configured_type. cbn [setting].
  destruct (setting "type" rest); [reflexivity |].
  now destruct (k =? "type")%string.
Qed.

Lemma configured_size_cons k v rest default :
  configured_size ((k, v) :: rest) default =
    configured_size rest
      (if (k =? "expected_size")%string
       then to_int64 (strtoull v) else default).
Proof.
  unfold configured_size. cbn [setting].
  destruct (setting "expected_size" rest); [reflexivity |].
  now destruct (k =? "expected_size")%string.
Qed.

Lemma configured_prefix_cons k v rest default :
  configured_prefix ((k, v) :: rest) default =
    configured_prefix rest (if (k =? "SOURCE")%string then v else default).
Proof.
  unfold configured_prefix. cbn [setting].
  destruct (setting "SOURCE" rest); [reflexivity |].
  now destruct (k =? "SOURCE")%string.
Qed.

Lemma configured_resource_cons k v rest default :
  configured_resource ((k, v) :: rest) default =
    configured_resource rest
      (if (k =? "filesystem_resource")%string
       then to_int32 (strtoull v) else default).
Proof.
  unfold configured_resource. cbn [setting].
  destruct (setting "filesystem_resource" rest); [reflexivity |].
  now destruct (k =? "filesystem_resource")%string.
Qed.

(** When the loop runs to its end, its two locals and the two fields it
    assigns hold the settings of the configuration. *)
Lemma parse_args_settings (string_map : StringMap_t) :
  forall filesystem_type expected_size (m : Machine)
         filesystem_type' expected_size' m',
  parse_args string_map filesystem_type expected_size m =
    Some (inr (filesystem_type', expected_size'), m') ->
  filesystem_type' = configured_type string_map filesystem_type /\
  expected_size' = configured_size string_map expected_size /\
  prefix_ (self m') = configured_prefix string_map (prefix_ (self m)) /\
  filesystem_resource_ (self m') =
    configured_resource string_map (filesystem_resource_ (self m)).
Proof.
  induction string_map as [| [first second] rest IH];
    intros filesystem_type expected_size m ft' es' m'.
  - cbn [parse_args]. unfold ret. intros E. inversion E; subst.
    repeat split.
  - rewrite configured_type_cons, configured_size_cons,
      configured_prefix_cons, configured_resource_cons.
    key_cases first second; try discriminate.
    all: try (intros E; apply IH in E; exact E).
    unfold bind, ppapi_call, assign.
    destruct (IsFileSystem (to_int32 (strtoull second)) (world m))
      as [[|] w]; cbn [negb self world calls]; [| discriminate].
    intros E. apply IH in E. exact E.
Qed.

(** *** Creating and opening the filesystem *)

Lemma bind_assign {A} (f : Html5Fs -> Html5Fs) (k : unit -> M A) m :
  bind (assign f) k m =
    k tt {| self := f (self m); world := world m; calls := calls m |}.
Proof. reflexivity. Qed.

(** One statement of [Init] after the parse loop. *)
Ltac step_init :=
  cbn [self world calls set_prefix set_filesystem_resource resolve_gate
       filesystem_resource_ filesystem_open_has_result_
       filesystem_open_error_ prefix_];
  first [ match goal with
          | |- _ (bind (assign ?f) ?k ?m) => rewrite (bind_assign f k m)
          | H : ?f _ = (?a, ?w)
            |- _ (@bind _ ?A ?B (ppapi_call ?c ?f) ?k ?m) =>
              rewrite (@bind_Some A B (ppapi_call c f) k m a (logged m w [c])
                         (ppapi_call_run c f m a w H))
          end
        | step ].

Section DefaultPath.
Variables (args : FsInitArgs) (m : Machine).
Hypothesis Base : Filesystem_Init args = 0.
Hypothesis Present : ppapi args = true.
Hypothesis Accepted : existsb rejected_entry (string_map args) = false.
Hypothesis NoHandle : existsb names_resource (string_map args) = false.
Hypothesis Fresh : filesystem_resource_ (self m) = 0.

Let type : PP_FileSystemType :=
  configured_type (string_map args) PP_FILESYSTEMTYPE_LOCALPERSISTENT.
Let size : Z := configured_size (string_map args) 0.
Let configured : Html5Fs :=
  set_prefix (configured_prefix (string_map args) (prefix_ (self m))) (self m).

Lemma parse_args_accepted :
  parse_args (string_map args) PP_FILESYSTEMTYPE_LOCALPERSISTENT 0 m =
    Some (inr (type, size),
          {| self := configured; world := world m; calls := calls m |}).
Proof.
  destruct (parse_args_plain (string_map args)
              PP_FILESYSTEMTYPE_LOCALPERSISTENT 0 m NoHandle Accepted)
    as (ft' & es' & p & E).
  destruct (parse_args_settings _ _ _ _ _ _ _ E) as (-> & -> & P & _).
  cbn [self set_prefix prefix_] in P. now rewrite E, P.
Qed.

Lemma configured_fresh : filesystem_resource_ configured = 0.
Proof. exact Fresh. Qed.

Ltac run_Init :=
  pose proof configured_fresh;
  unfold Init; rewrite Base, Present; cbn [nonzero Z.eqb negb];
  rewrite (bind_Some _ _ _ _ _ parse_args_accepted);
  match goal with |- ?c = _ => focus c end;
  repeat step_init;
  unfocus; unfold ret, logged;
  cbn [self world calls set_prefix set_filesystem_resource resolve_gate
       filesystem_resource_ filesystem_open_has_result_
       filesystem_open_error_ prefix_];
  rewrite <- ?app_assoc; cbn [app]; settle.

(** X8.  An accepted configuration without supplied handle, on a fresh
    object: [Init] asks the browser for a filesystem of the configured
    type ([TEMPORARY] when so configured, [PERSISTENT] otherwise).  When
    the browser yields the null resource, [Init] returns [ENOSYS]: nothing
    is opened, the thread is not asked for, and the gate stays
    unresolved. *)
Theorem Init_create_refused (w1 : World) :
  FileSystem_Create GetInstance type (world m) = (0, w1) ->
  Init args m =
    Some (ENOSYS,
          {| self := set_filesystem_resource 0 configured;
             world := w1;
             calls := calls m ++ [CallFileSystemCreate GetInstance type] |}).
Proof.
  intros Created. run_Init.
Qed.

(** X9.  The same, on the main thread, with a filesystem [res] created:
    [Init] requests the open with the configured size and a completion
    callback, and returns 0 whatever the browser answers to that request.
    The gate is still unresolved on return. *)
Theorem Init_on_main_thread (res : PP_Resource) (w1 w2 : World)
        (result : Z) (w3 : World) :
  FileSystem_Create GetInstance type (world m) = (res, w1) ->
  res <> 0 ->
  IsMainThread w1 = (true, w2) ->
  FileSystem_Open res size true w2 = (result, w3) ->
  Init args m =
    Some (0,
          {| self := set_filesystem_resource res configured;
             world := w3;
             calls := calls m ++ [CallFileSystemCreate GetInstance type;
                                  CallIsMainThread;
                                  CallFileSystemOpen res size true] |}).
Proof.
  intros Created Valid Main Opened. run_Init.
Qed.

(** X10.  The same, off the main thread: [Init] requests the open with the
    configured size as a blocking call, resolves the gate with the
    translation of the answer, and returns that translation. *)
Theorem Init_off_main_thread (res : PP_Resource) (w1 w2 : World)
        (result : Z) (w3 : World) :
  FileSystem_Create GetInstance type (world m) = (res, w1) ->
  res <> 0 ->
  IsMainThread w1 = (false, w2) ->
  FileSystem_Open res size false w2 = (result, w3) ->
  Init args m =
    Some (PPErrorToErrno result,
          {| self := resolve_gate (PPErrorToErrno result)
                       (set_filesystem_resource res configured);
             world := w3;
             calls := calls m ++ [CallFileSystemCreate GetInstance type;
                                  CallIsMainThread;
                                  CallFileSystemOpen res size false] |}).
Proof.
  intros Created Valid Main Opened. run_Init.
Qed.

End DefaultPath.

(** *** [Init] as a whole *)

Lemma validated_is_about (cs : list PPCall) :
  forallb validates_handle cs = true -> forallb about_filesystem cs = true.
Proof.
  induction cs as [| c cs IH]; cbn [forallb]; [reflexivity |].
  intros H. apply andb_true_iff in H as [Hc Hcs].
  rewrite (IH Hcs). now destruct c.
Qed.

(** Every way out of [Init]. *)
Lemma Init_outcome (args : FsInitArgs) (m : Machine) :
  exists e m' cs,
    Init args m = Some (e, m') /\
    calls m' = calls m ++ cs /\
    forallb about_filesystem cs = true /\
    (e = 0 ->
     prefix_ (self m') =
       configured_prefix (string_map args) (prefix_ (self m))) /\
    (filesystem_open_has_result_ (self m) = false ->
     filesystem_open_has_result_ (self m') = true ->
     filesystem_open_error_ (self m') = e).
Proof.
  unfold Init. cbv zeta.
  destruct (nonzero (Filesystem_Init args)) eqn:B.
  { exists (Filesystem_Init args), m, []. rewrite app_nil_r.
    apply nonzero_true_inv in B. repeat split; congruence. }
  destruct (ppapi args); cbn [negb].
  2: { exists ENOSYS, m, []. rewrite app_nil_r.
       repeat split; try discriminate; congruence. }
  destruct (parse_args_runs (string_map args)
              PP_FILESYSTEMTYPE_LOCALPERSISTENT 0 m)
    as (r & m1 & cs & E & (C & V & H & Er) & Inl & _ & _).
  rewrite (bind_Some _ _ _ _ _ E).
  apply validated_is_about in V.
  destruct r as [e | [ft es]].
  { rewrite (Inl e eq_refl). exists EINVAL, m1, cs.
    repeat split; try discriminate; congruence. }
  destruct (parse_args_settings _ _ _ _ _ _ _ E) as (_ & _ & P & _).
  match goal with |- exists e m' cs', ?c = _ /\ _ => focus c end.
  repeat step_init; unfocus; unfold ret, logged;
    cbn [self world calls set_prefix set_filesystem_resource resolve_gate
         filesystem_resource_ filesystem_open_has_result_
         filesystem_open_error_ prefix_];
    rewrite C, <- ?app_assoc; cbn [app].
  all: do 3 eexists; (split; [reflexivity |]);
    cbn [self world calls set_prefix set_filesystem_resource resolve_gate
         filesystem_resource_ filesystem_open_has_result_
         filesystem_open_error_ prefix_].
  all: (split; [first [ reflexivity
                      | rewrite <- (app_nil_r (calls m ++ cs)) at 1;
                        rewrite <- app_assoc; reflexivity ] |]).
  all: rewrite ?forallb_app, ?V; cbn [forallb about_filesystem andb].
  all: repeat split; try discriminate; try congruence.
Qed.

(** X11.  [Init] returns in every state of the object and on every
    thread: it never waits for the gate.  All the calls it makes are about
    the filesystem as a whole (thread test, validation and retention of a
    handle, creation and opening of the filesystem): it creates no file
    reference and initializes no node, and it queries, makes, deletes and
    renames nothing. *)
Theorem Init_returns (args : FsInitArgs) (m : Machine) :
  exists e m' cs,
    Init args m = Some (e, m') /\
    calls m' = calls m ++ cs /\
    forallb about_filesystem cs = true.
Proof.
  destruct (Init_outcome args m) as (e & m' & cs & E & C & A & _).
  now exists e, m', cs.
Qed.

(** X12.  When [Init] leaves the gate resolved on an object whose gate was
    unresolved, the outcome it stored is the value it returned: the
    operations that follow report what the mount reported.  In particular
    the gate is open after [Init] only if [Init] returned 0. *)
Theorem Init_gate_matches_result (args : FsInitArgs) (m m' : Machine)
        (e : Error) :
  filesystem_open_has_result_ (self m) = false ->
  Init args m = Some (e, m') ->
  resolved m' ->
  filesystem_open_error_ (self m') = e.
Proof.
  intros U E R.
  destruct (Init_outcome args m) as (e0 & m0 & cs & E0 & _ & _ & _ & G).
  rewrite E in E0. inversion E0; subst e0 m0. now apply G.
Qed.

(** X13.  After an [Init] that returned 0, the prefix of the object is the
    value the configuration, a map with one entry per key, holds under
    [SOURCE]; without such an entry the prefix is left as it was. *)
Theorem Init_success_installs_prefix (args : FsInitArgs) (m m' : Machine) :
  NoDup (map fst (string_map args)) ->
  Init args m = Some (0, m') ->
  (forall v, In ("SOURCE", v) (string_map args) -> prefix_ (self m') = v) /\
  (~ In "SOURCE" (map fst (string_map args)) ->
   prefix_ (self m') = prefix_ (self m)).
Proof.
  intros Unique E.
  destruct (Init_outcome args m) as (e0 & m0 & cs & E0 & _ & _ & P & _).
  rewrite E in E0. inversion E0; subst e0 m0.
  specialize (P eq_refl). unfold configured_prefix in P. split.
  - intros v Here. now rewrite (setting_In _ _ _ Unique Here) in P.
  - intros Absent. now rewrite (setting_absent _ _ Absent) in P.
Qed.

(** X14.  Mount, then operate.  Let [Init] have returned 0 under a
    configuration with [SOURCE] set to [v].  From then on, be it that
    [Init] itself resolved the gate or that the completion callback did so
    later, and after any operations in between, every reference an
    operation other than [Rename] asks for is asked with the live string of
    [v] prepended to one of the paths the operation was given. *)
Theorem mounted_prefix_qualifies_paths (args : FsInitArgs) (m m1 : Machine)
        (v : string) (result : Z) (ops : list Operation) (op : Operation) :
  NoDup (map fst (string_map args)) ->
  In ("SOURCE", v) (string_map args) ->
  Init args m = Some (0, m1) ->
  is_rename op = false ->
  let qualified (m2 : Machine) :=
    exists e w cs,
      perform op m2 = Some (e, logged m2 w cs) /\
      forall f p, In (CallFileRefCreate f p) cs ->
        exists q, In q (paths_of op) /\
                  p = Live (Path_Join (Path_Prepend v q)) in
  (resolved m1 ->
   exists es m2, perform_all ops m1 = Some (es, m2) /\ qualified m2) /\
  (exists m1' es m2,
     FilesystemOpenCallback result m1 = Some (tt, m1') /\
     perform_all ops m1' = Some (es, m2) /\ qualified m2).
Proof.
  intros Unique Here E NotRename qualified.
  assert (P1 : prefix_ (self m1) = v).
  { destruct (Init_outcome args m) as (e0 & m0 & cs0 & E0 & _ & _ & P & _).
    rewrite E in E0. inversion E0; subst e0 m0.
    specialize (P eq_refl). unfold configured_prefix in P.
    now rewrite (setting_In _ _ _ Unique Here) in P. }
  assert (Go : forall mr : Machine,
             resolved mr -> prefix_ (self mr) = v ->
             exists es m2, perform_all ops mr = Some (es, m2) /\ qualified m2).
  { intros mr R P.
    destruct (perform_all_runs ops mr R) as (es & w0 & cs0 & Run).
    exists es, (logged mr w0 cs0). split; [exact Run |].
    destruct (create_reference_gets_full_path (logged mr w0 cs0) op
                R NotRename) as (e & w & cs & Perf & Paths).
    exists e, w, cs. split; [exact Perf |].
    intros f p I. destruct (Paths f p I) as (_ & q & Q & ->).
    exists q. split; [exact Q |].
    unfold full_path_string. rewrite self_logged. now rewrite P. }
  split.
  - intros R. now apply Go.
  - set (m1' := {| self := resolve_gate (PPErrorToErrno result) (self m1);
                   world := world m1; calls := calls m1 |}).
    destruct (Go m1' eq_refl P1) as (es & m2 & Run & Q).
    now exists m1', es, m2.
Qed.

(** X15.  What the parse loop reads.  When the loop runs to its end over a
    map with one entry per key, the filesystem type is [TEMPORARY] exactly
    for [type] set to [TEMPORARY], [PERSISTENT] for any other accepted
    value, and the initial one without a [type] entry; the expected size is
    the 64-bit value of the decimal number under [expected_size], and the
    initial one without such an entry. *)
Theorem parse_args_reads_configuration (string_map : StringMap_t)
        (filesystem_type : PP_FileSystemType) (expected_size : Z)
        (m : Machine)
        (filesystem_type' : PP_FileSystemType) (expected_size' : Z)
        (m' : Machine) :
  NoDup (map fst string_map) ->
  parse_args string_map filesystem_type expected_size m =
    Some (inr (filesystem_type', expected_size'), m') ->
  (In ("type", "TEMPORARY") string_map ->
   filesystem_type' = PP_FILESYSTEMTYPE_LOCALTEMPORARY) /\
  (forall v, In ("type", v) string_map -> v <> "TEMPORARY" ->
   filesystem_type' = PP_FILESYSTEMTYPE_LOCALPERSISTENT) /\
  (~ In "type" (map fst string_map) -> filesystem_type' = filesystem_type) /\
  (forall v, In ("expected_size", v) string_map ->
   expected_size' = to_int64 (strtoull v)) /\
  (~ In "expected_size" (map fst string_map) ->
   expected_size' = expected_size).
Proof.
  intros Unique E.
  destruct (parse_args_settings _ _ _ _ _ _ _ E) as (-> & -> & _).
  unfold configured_type, configured_size. repeat split.
  - intros Here. now rewrite (setting_In _ _ _ Unique Here).
  - intros v Here Other. rewrite (setting_In _ _ _ Unique Here).
    now destruct (String.eqb_spec v "TEMPORARY").
  - intros Absent. now rewrite (setting_absent _ _ Absent).
  - intros v Here. now rewrite (setting_In _ _ _ Unique Here).
  - intros Absent. now rewrite (setting_absent _ _ Absent).
Qed.

End Properties.

(** * The model at work: runs on the in-memory browser *)

Import Fake.

Lemma gate_failure_short_circuits_witness :
  perform_all every_operation failed_machine
  = Some (repeat EIO 7, failed_machine).
Proof.
  apply (gate_failure_short_circuits failed_machine every_operation).
  - reflexivity.
  - discriminate.
Defined.

Lemma remove_class_policy_witness :
  option_map fst (Unlink data ready_machine) = Some EISDIR /\
  option_map fst (Rmdir a_txt ready_machine) = Some ENOTDIR /\
  option_map fst (Remove data ready_machine) = Some 0.
Proof.
  edestruct (remove_class_policy ready_machine data)
    as (U & _ & _ & _ & Rm);
    [ split; reflexivity | reflexivity | discriminate
    | reflexivity | reflexivity | ].
  edestruct (remove_class_policy ready_machine a_txt)
    as (_ & Rd & _);
    [ split; reflexivity | reflexivity | discriminate
    | reflexivity | reflexivity | ].
  rewrite (U eq_refl eq_refl), (Rd eq_refl eq_refl), Rm.
  repeat split.
Defined.

(** C3, as stated, fails: the gate of [ready_machine] is resolved to
    success, a second run of the completion callback with a failure is
    accepted, and a caller then gets [EIO] where it got 0 before. *)
Lemma second_resolution_changes_outcome :
  resolved ready_machine /\
  BlockUntilFilesystemOpen ready_machine = Some (0, ready_machine) /\
  exists m',
    FilesystemOpenCallback PP_ERROR_FAILED ready_machine = Some (tt, m') /\
    BlockUntilFilesystemOpen m' = Some (EIO, m') /\
    EIO <> 0.
Proof.
  split; [reflexivity |]. split; [reflexivity |].
  eexists. split; [reflexivity |]. split; [reflexivity | discriminate].
Qed.

Lemma gate_outcome_stable_witness :
  exists es m',
    perform_all some_operations ready_machine = Some (es, m') /\
    BlockUntilFilesystemOpen m' = Some (0, m').
Proof.
  destruct (gate_outcome_stable ready_machine some_operations)
    as [(es & m' & E & _ & B) _].
  - reflexivity.
  - exists es, m'. split; [exact E | exact B].
Defined.

(** C4, as stated, fails: on a mount whose open failed, [Mkdir] on the
    root returns the stored [EIO], not [EEXIST]. *)
Lemma Mkdir_root_behind_failed_gate :
  Path_IsRoot root = true /\
  resolved failed_machine /\
  Mkdir root 493 failed_machine = Some (EIO, failed_machine) /\
  EIO <> EEXIST.
Proof. repeat split; discriminate. Qed.

Lemma Mkdir_root_witness :
  Mkdir root 493 ready_machine = Some (EEXIST, ready_machine) /\
  Mkdir root 0 failed_machine = Some (EIO, failed_machine).
Proof.
  split.
  - apply (Mkdir_root ready_machine root 493); reflexivity.
  - apply (Mkdir_root failed_machine root 0); reflexivity.
Defined.

Lemma Rename_hands_over_dangling_paths_witness :
  exists e w cs,
    Rename a_txt b_txt ready_machine =
      Some (e, logged ready_machine w
                 (CallFileRefCreate 10 (Dangling "/saved/data/a.txt") :: cs)).
Proof.
  destruct (Rename_hands_over_dangling_paths ready_machine a_txt b_txt)
    as (e & w & cs & E & _).
  - split; reflexivity.
  - exists e, w, cs. exact E.
Defined.




(** C8, as stated, fails: [handle_then_bad_type] supplies the handle 5,
    which the browser validates, and yet [Init] returns [EINVAL] and leaves
    the gate unresolved, because of the entry that follows.  And a mount
    without Pepper interface fails with [ENOSYS], whatever handle is
    supplied. *)
Lemma Init_valid_handle_yet_rejected :
  keys_ascending handle_then_bad_type = true /\
  In ("filesystem_resource", "5") handle_then_bad_type /\
  IsFileSystem (to_int32 (strtoull "5")) (world (boot true PP_OK))
  = (true, world (boot true PP_OK)) /\
  option_map (fun r => (fst r, filesystem_open_has_result_ (self (snd r))))
             (Init (mount_args handle_then_bad_type) (boot true PP_OK))
  = Some (EINVAL, false) /\
  IsFileSystem (to_int32 (strtoull "7")) (world (boot true PP_OK))
  = (false, world (boot true PP_OK)) /\
  option_map fst (Init (without_pepper stale_handle) (boot true PP_OK))
  = Some ENOSYS /\
  ENOSYS <> EINVAL.
Proof. cbn [In handle_then_bad_type]. repeat split; auto; discriminate. Qed.

Lemma Init_with_supplied_handle_witness :
  (exists m',
     Init (mount_args open_handle) (boot true PP_OK) = Some (0, m') /\
     ready m' /\
     calls m' = [CallIsFileSystem 5; CallAddRefResource 5]) /\
  option_map fst (Init (mount_args stale_handle) (boot true PP_OK))
  = Some EINVAL.
Proof.
  split.
  - edestruct (Init_with_supplied_handle (mount_args open_handle)
                                         (boot true PP_OK) "5")
      as [Valid _];
      [ reflexivity | reflexivity
      | repeat constructor; cbn; intuition discriminate
      | cbn; auto | reflexivity | ].
    destruct Valid as (m' & E & Rdy & _ & _ & C);
      [reflexivity | discriminate | reflexivity |].
    exists m'. split; [exact E |]. split; [exact Rdy | exact C].
  - edestruct (Init_with_supplied_handle (mount_args stale_handle)
                                         (boot true PP_OK) "7")
      as [_ Invalid];
      [ reflexivity | reflexivity
      | repeat constructor; cbn; intuition discriminate
      | cbn; auto | reflexivity | ].
    destruct Invalid as (m' & cs & E & _); [reflexivity |].
    now rewrite E.
Defined.

(** ** Runs for the further properties *)

Lemma operations_wait_for_gate_witness :
  perform (OpAccess data 0) waiting_machine = None /\
  perform_all every_operation waiting_machine = None.
Proof.
  apply (operations_wait_for_gate waiting_machine (OpAccess data 0)
           (tl every_operation)).
  reflexivity.
Defined.

Lemma failed_open_is_reported_witness :
  exists m',
    FilesystemOpenCallback PP_ERROR_FAILED waiting_machine = Some (tt, m') /\
    perform_all every_operation m' = Some (repeat EIO 7, m').
Proof.
  destruct (failed_open_is_reported waiting_machine PP_ERROR_FAILED
              every_operation)
    as (m' & E & _ & _ & All).
  - discriminate.
  - exists m'. split; [exact E | exact All].
Defined.

Lemma Open_outcomes_witness :
  option_map fst (Open a_txt O_RDONLY None ready_machine)
  = Some (0, Some {| fileref_resource_ := 11 |}) /\
  option_map fst (Open missing O_RDONLY None ready_machine)
  = Some (ENOENT, None) /\
  option_map (fun r => (fst r, calls (snd r)))
             (Open relative O_RDONLY None unprefixed_machine)
  = Some ((ENOENT, None),
          calls unprefixed_machine ++ [CallFileRefCreate 10 (Live "data")]).
Proof.
  edestruct (Open_outcomes ready_machine a_txt O_RDONLY None)
    as (_ & _ & Opened);
    [ split; reflexivity | reflexivity | reflexivity | ].
  rewrite Opened by (vm_compute; first [discriminate | reflexivity]).
  edestruct (Open_outcomes ready_machine missing O_RDONLY None)
    as (_ & Failed & _);
    [ split; reflexivity | reflexivity | reflexivity | ].
  rewrite Failed by (vm_compute; discriminate).
  edestruct (Open_outcomes unprefixed_machine relative O_RDONLY None)
    as (NoRef & _);
    [ split; reflexivity | reflexivity | reflexivity | ].
  rewrite NoRef by (vm_compute; reflexivity).
  repeat split.
Defined.

Lemma Mkdir_outcomes_witness :
  option_map fst (Mkdir new_dir 493 ready_machine) = Some 0 /\
  option_map fst (Mkdir data 493 ready_machine) = Some EIO /\
  option_map fst (Mkdir relative 493 unprefixed_machine) = Some ENOENT.
Proof.
  edestruct (Mkdir_outcomes ready_machine new_dir 493) as (_ & Made);
    [ split; reflexivity | reflexivity | reflexivity | reflexivity | ].
  rewrite Made by (vm_compute; discriminate).
  edestruct (Mkdir_outcomes ready_machine data 493) as (_ & Exists);
    [ split; reflexivity | reflexivity | reflexivity | reflexivity | ].
  rewrite Exists by (vm_compute; discriminate).
  edestruct (Mkdir_outcomes unprefixed_machine relative 493) as (NoRef & _);
    [ split; reflexivity | reflexivity | reflexivity | reflexivity | ].
  rewrite NoRef by (vm_compute; reflexivity).
  repeat split.
Defined.

Lemma RemoveInternal_without_reference_witness :
  option_map fst (Unlink relative unprefixed_machine) = Some ENOENT /\
  option_map fst (Remove relative unprefixed_machine) = Some ENOENT.
Proof.
  unfold Unlink, Remove.
  erewrite !(RemoveInternal_without_reference unprefixed_machine relative);
    [ repeat split | split; reflexivity | reflexivity
    | split; reflexivity | reflexivity ].
Defined.

Lemma restricted_removal_deletes_witness :
  option_map fst (Rmdir data ready_machine) = Some 0 /\
  option_map fst (Unlink a_txt ready_machine) = Some 0.
Proof.
  edestruct (restricted_removal_deletes ready_machine data) as (Dir & _);
    [ split; reflexivity | reflexivity | discriminate
    | reflexivity | reflexivity | ].
  edestruct (restricted_removal_deletes ready_machine a_txt) as (_ & File);
    [ split; reflexivity | reflexivity | discriminate
    | reflexivity | reflexivity | ].
  rewrite (Dir eq_refl), (File eq_refl). repeat split.
Defined.

Lemma success_follows_one_request_witness :
  exists m' cs,
    perform (OpMkdir new_dir 493) ready_machine = Some (0, m') /\
    calls m' = calls ready_machine ++ cs ++ [CallMakeDirectory 11 false] /\
    existsb mutates cs = false.
Proof.
  eassert (E : perform (OpMkdir new_dir 493) ready_machine = Some (0, _))
    by (lazy; reflexivity).
  destruct (success_follows_one_request ready_machine _
              (OpMkdir new_dir 493) eq_refl eq_refl E)
    as (cs & c & C & _ & Quiet).
  eexists. exists cs. split; [exact E |]. split; [| exact Quiet].
  rewrite C. do 2 f_equal.
  apply (f_equal (fun l => last l CallIsMainThread)) in C.
  rewrite app_assoc, last_last in C. rewrite <- C. reflexivity.
Defined.


Lemma Init_create_refused_witness :
  option_map (fun r => (fst r, calls (snd r),
                        filesystem_open_has_result_ (self (snd r))))
             (Init (mount_args temporary_4k) (exhausted true))
  = Some (ENOSYS,
          [CallFileSystemCreate 1 PP_FILESYSTEMTYPE_LOCALTEMPORARY],
          false).
Proof.
  erewrite (Init_create_refused (mount_args temporary_4k) (exhausted true));
    [ | reflexivity .. ].
  reflexivity.
Defined.

Lemma Init_on_main_thread_witness :
  option_map (fun r => (fst r, calls (snd r),
                        filesystem_open_has_result_ (self (snd r))))
             (Init (mount_args temporary_4k) (boot true PP_ERROR_FAILED))
  = Some (0,
          [CallFileSystemCreate 1 PP_FILESYSTEMTYPE_LOCALTEMPORARY;
           CallIsMainThread; CallFileSystemOpen 10 4096 true],
          false).
Proof.
  erewrite (Init_on_main_thread (mount_args temporary_4k)
              (boot true PP_ERROR_FAILED));
    [ | first [reflexivity | vm_compute; discriminate] .. ].
  reflexivity.
Defined.

Lemma Init_off_main_thread_witness :
  option_map (fun r => (fst r, calls (snd r),
                        filesystem_open_error_ (self (snd r))))
             (Init (mount_args temporary_4k) (boot false PP_ERROR_FAILED))
  = Some (EIO,
          [CallFileSystemCreate 1 PP_FILESYSTEMTYPE_LOCALTEMPORARY;
           CallIsMainThread; CallFileSystemOpen 10 4096 false],
          EIO).
Proof.
  erewrite (Init_off_main_thread (mount_args temporary_4k)
              (boot false PP_ERROR_FAILED));
    [ | first [reflexivity | vm_compute; discriminate] .. ].
  reflexivity.
Defined.

Lemma Init_gate_matches_result_witness :
  exists m',
    Init (mount_args temporary_4k) (boot false PP_ERROR_FAILED)
    = Some (EIO, m') /\
    filesystem_open_error_ (self m') = EIO.
Proof.
  eassert (E : Init (mount_args temporary_4k) (boot false PP_ERROR_FAILED)
               = Some (EIO, _)) by (lazy; reflexivity).
  eexists. split; [exact E |].
  apply (Init_gate_matches_result (mount_args temporary_4k)
           (boot false PP_ERROR_FAILED) _ EIO); [reflexivity | exact E |].
  reflexivity.
Defined.

Lemma Init_success_installs_prefix_witness :
  exists m',
    Init (mount_args temporary_4k) (boot true PP_OK) = Some (0, m') /\
    prefix_ (self m') = "/saved".
Proof.
  eassert (E : Init (mount_args temporary_4k) (boot true PP_OK)
               = Some (0, _)) by (lazy; reflexivity).
  eexists. split; [exact E |].
  apply (Init_success_installs_prefix (mount_args temporary_4k)
           (boot true PP_OK) _).
  - repeat constructor; cbn; intuition discriminate.
  - exact E.
  - cbn. auto.
Defined.

Lemma mounted_prefix_qualifies_paths_witness :
  exists m1 m1' es m2 e w cs,
    Init (mount_args [("SOURCE", "/saved")]) (boot true PP_OK)
    = Some (0, m1) /\
    filesystem_open_has_result_ (self m1) = false /\
    FilesystemOpenCallback PP_OK m1 = Some (tt, m1') /\
    perform_all [OpMkdir new_dir 493] m1' = Some (es, m2) /\
    perform (OpUnlink a_txt) m2 = Some (e, logged m2 w cs) /\
    forall f p, In (CallFileRefCreate f p) cs ->
                p = Live "/saved/data/a.txt".
Proof.
  eassert (E : Init (mount_args [("SOURCE", "/saved")]) (boot true PP_OK)
               = Some (0, _)) by (lazy; reflexivity).
  match type of E with
  | _ = Some (_, ?m1) =>
      destruct (mounted_prefix_qualifies_paths
                  (mount_args [("SOURCE", "/saved")]) (boot true PP_OK)
                  m1 "/saved" PP_OK [OpMkdir new_dir 493] (OpUnlink a_txt))
        as (_ & m1' & es & m2 & Called & Run & e & w & cs & P & Paths);
        [ repeat constructor; intros []
        | cbn; auto | exact E | reflexivity | ];
      exists m1, m1', es, m2, e, w, cs
  end.
  split; [exact E |]. split; [reflexivity |]. split; [exact Called |].
  split; [exact Run |]. split; [exact P |].
  intros f p I. destruct (Paths f p I) as (q & [<- | []] & ->).
  reflexivity.
Defined.

Lemma parse_args_reads_configuration_witness :
  exists filesystem_type expected_size m',
    parse_args temporary_4k PP_FILESYSTEMTYPE_LOCALPERSISTENT 0
               (boot true PP_OK)
    = Some (inr (filesystem_type, expected_size), m') /\
    filesystem_type = PP_FILESYSTEMTYPE_LOCALTEMPORARY /\
    expected_size = 4096.
Proof.
  eassert (E : parse_args temporary_4k PP_FILESYSTEMTYPE_LOCALPERSISTENT 0
                          (boot true PP_OK) = Some (inr (_, _), _))
    by (lazy; reflexivity).
  do 3 eexists. split; [exact E |].
  destruct (parse_args_reads_configuration temporary_4k _ _ _ _ _ _
              ltac:(repeat constructor; cbn; intuition discriminate) E)
    as (Temp & _ & _ & Size & _).
  split.
  - apply Temp. cbn. auto.
  - apply (Size "4096"). cbn. auto.
Defined.
